(** * miniox: path namespace and folder emulation over a flat object store

    A shallow embedding of [pkg/miniox] (client.go, objects.go, the tagging /
    retention / legal-hold / select wrappers, the presigned-URL wrappers and
    the folder operations), together with the properties its specification
    states about it.

    Go strings are byte sequences; they are modelled by [string] (a list of
    8-bit [ascii]).  A Go [error] is modelled by [option Err], [None] being
    [nil].  Calls into the wrapped [*minio.Client] are the only effects of
    the package; they are modelled as the events of a small free monad
    [Prog], which is run against an arbitrary stateful collaborator. *)

From Stdlib Require Import Ascii ZArith.
From stdpp Require Import base option list sorting strings gmap.

Local Open Scope char_scope.
Local Open Scope stdpp_scope.

(** ** The fragment of Go's [strings] package used by miniox *)

Module Strings.

(** [len(s)] *)
Definition len (s : string) : nat := String.length s.

(** [s[n:]] for [n <= len(s)] (saturating to the empty string above). *)
Fixpoint slice_from (n : nat) (s : string) : string :=
  match n, s with
  | O, _ => s
  | S _, EmptyString => EmptyString
  | S k, String _ r => slice_from k r
  end.

(** [strings.IndexByte(cutset, c) >= 0] *)
Fixpoint ContainsByte (cutset : string) (c : ascii) : bool :=
  match cutset with
  | EmptyString => false
  | String d r => if Ascii.eqb d c then true else ContainsByte r c
  end.

(** [strings.HasPrefix]: [len(s) >= len(prefix) && s[:len(prefix)] == prefix]. *)
Fixpoint HasPrefix (s prefix : string) {struct prefix} : bool :=
  match prefix, s with
  | EmptyString, _ => true
  | String _ _, EmptyString => false
  | String p ps, String c cs => if Ascii.eqb c p then HasPrefix cs ps else false
  end.

(** [strings.TrimPrefix] *)
Definition TrimPrefix (s prefix : string) : string :=
  if HasPrefix s prefix then slice_from (len prefix) s else s.

(** [strings.HasSuffix]:
    [len(s) >= len(suffix) && s[len(s)-len(suffix):] == suffix]. *)
Definition HasSuffix (s suffix : string) : bool :=
  (len suffix <=? len s)%nat
  && String.eqb (slice_from (len s - len suffix) s) suffix.

(** [s[:len(s)-n]] for [n <= len(s)]. *)
Fixpoint slice_to (n : nat) (s : string) : string :=
  match n, s with
  | O, _ => EmptyString
  | S _, EmptyString => EmptyString
  | S k, String c r => String c (slice_to k r)
  end.

(** [strings.TrimSuffix] *)
Definition TrimSuffix (s suffix : string) : string :=
  if HasSuffix s suffix then slice_to (len s - len suffix) s else s.

(** [strings.Contains(s, substr)], i.e. [strings.Index(s, substr) >= 0]:
    some tail of [s] starts with [substr]. *)
Fixpoint Contains (s substr : string) : bool :=
  HasPrefix s substr
  || match s with
     | EmptyString => false
     | String _ r => Contains r substr
     end.

(** [strings.TrimLeft(s, cutset)] for an ASCII cutset: drop leading bytes
    that occur in [cutset]. *)
Fixpoint TrimLeft (s cutset : string) : string :=
  match s with
  | EmptyString => EmptyString
  | String c r => if ContainsByte cutset c then TrimLeft r cutset else s
  end.

(** [strings.TrimRight(s, cutset)] for an ASCII cutset: drop trailing bytes
    that occur in [cutset]. *)
Fixpoint TrimRight (s cutset : string) : string :=
  match s with
  | EmptyString => EmptyString
  | String c r =>
      match TrimRight r cutset with
      | EmptyString => if ContainsByte cutset c then EmptyString else String c EmptyString
      | r' => String c r'
      end
  end.

(** [strings.Trim(s, cutset)]: both ends. *)
Definition Trim (s cutset : string) : string :=
  TrimLeft (TrimRight s cutset) cutset.

(** The worker of [strings.Split] / [strings.ReplaceAll] scans [s] from the
    left; [skip] counts the bytes of the separator occurrence just matched
    that still have to be stepped over, so that matches never overlap
    (Go advances by [len(sep)] after each hit). *)
Fixpoint genSplit (s sep : string) (skip : nat) : list string :=
  match s with
  | EmptyString => [EmptyString]
  | String c r =>
      match skip with
      | S k => genSplit r sep k
      | O =>
          if HasPrefix s sep
          then EmptyString :: genSplit r sep (len sep - 1)
          else match genSplit r sep 0 with
               | h :: t => String c h :: t
               | [] => [String c EmptyString]
               end
      end
  end.

(** [strings.Split(s, sep)] for a non-empty [sep]. *)
Definition Split (s sep : string) : list string := genSplit s sep 0.

Fixpoint replace (s old new : string) (skip : nat) : string :=
  match s with
  | EmptyString => EmptyString
  | String c r =>
      match skip with
      | S k => replace r old new k
      | O =>
          if HasPrefix s old
          then new +:+ replace r old new (len old - 1)
          else String c (replace r old new 0)
      end
  end.

(** [strings.ReplaceAll(s, old, new)] for a non-empty [old]. *)
Definition ReplaceAll (s old new : string) : string := replace s old new 0.

End Strings.

(** ** [path/filepath]: the OS separator and [ToSlash] *)

Module Filepath.

(** The build target decides [filepath.Separator]. *)
Inductive GOOS : Set := unix | windows.

Definition Separator (os : GOOS) : ascii :=
  match os with
  | unix => "/"
  | windows => "\"
  end.

(** [filepath.ToSlash]: the path itself when the separator already is the
    slash, otherwise every separator replaced by a slash. *)
Definition ToSlash (os : GOOS) (path : string) : string :=
  if Ascii.eqb (Separator os) "/" then path
  else Strings.ReplaceAll path (String (Separator os) EmptyString) "/".

End Filepath.

(** ** Errors *)

(** The error values the package creates or relays.  [TraversalError] and
    [AbsolutePathError] are the two [fmt.Errorf] values of [ValidatePath];
    [ErrorResponse] is [minio.ErrorResponse] (with its [Code]); any other
    error of the collaborator is an [OtherError]. *)
Inductive Err : Type :=
  | TraversalError (path : string)
  | AbsolutePathError (path : string)
  | PublicURLNotConfigured
  | InvalidSourcePath (object : string) (cause : Err)
  | ErrorResponse (Code Message : string)
  | OtherError (msg : string).

Abbreviation error := (option Err).

(** [err.Error()] *)
Fixpoint Error (e : Err) : string :=
  match e with
  | TraversalError path => "path traversal detected: " +:+ path
  | AbsolutePathError path => "absolute paths are not allowed: " +:+ path
  | PublicURLNotConfigured => "public base URL not configured"
  | InvalidSourcePath object cause =>
      "invalid source object path " +:+ object +:+ ": " +:+ Error cause
  | ErrorResponse _ Message => Message
  | OtherError msg => msg
  end.

(** [minio.ToErrorResponse(err).Code]: the code of an [ErrorResponse], the
    zero value's (empty) code for any other error. *)
Definition ToErrorResponse_Code (e : Err) : string :=
  match e with
  | ErrorResponse Code _ => Code
  | _ => ""
  end.

(** ** client.go: the client and the path algebra *)

(** [Client] without the [*minio.Client] handle, which is the collaborator
    the events of [Prog] talk to. *)
Record Client : Type := mkClient {
  bucketName : string;
  baseDirPrefix : string;
  publicBaseURL : string
}.

Section PathNamespace.

Variable os : Filepath.GOOS.

(** [buildPath] constructs the full path with the base directory prefix. *)
Definition buildPath (c : Client) (path : string) : string :=
  let cleanPath := Strings.Trim (Filepath.ToSlash os path) "/" in
  if String.eqb (baseDirPrefix c) "" then
    if String.eqb cleanPath "" then "" else cleanPath
  else
    let cleanPrefix := Strings.Trim (Filepath.ToSlash os (baseDirPrefix c)) "/" in
    if String.eqb cleanPath "" then cleanPrefix
    else cleanPrefix +:+ "/" +:+ cleanPath.

(** [stripBasePath] removes the base directory prefix from a full path. *)
Definition stripBasePath (c : Client) (fullPath : string) : string :=
  if String.eqb (baseDirPrefix c) "" then fullPath
  else
    let cleanPrefix := Strings.Trim (Filepath.ToSlash os (baseDirPrefix c)) "/" in
    let cleanFullPath := Filepath.ToSlash os fullPath in
    if Strings.HasPrefix cleanFullPath (cleanPrefix +:+ "/") then
      Strings.TrimPrefix cleanFullPath (cleanPrefix +:+ "/")
    else if String.eqb cleanFullPath cleanPrefix then ""
    else cleanFullPath.

(** [ValidatePath]: traversal is checked first, then absoluteness.  The
    receiver is unused by the source, too. *)
Definition ValidatePath (c : Client) (path : string) : error :=
  let cleanPath := Filepath.ToSlash os path in
  if Strings.Contains cleanPath ".." then Some (TraversalError path)
  else if Strings.HasPrefix cleanPath "/" then Some (AbsolutePathError path)
  else None.

End PathNamespace.

(** ** The wrapped client: the types and calls of minio-go that miniox uses *)

Module Minio.

(** Durations and instants, as integer nanoseconds. *)
Abbreviation Duration := Z.
Abbreviation Time := Z.

(** [minio.ObjectInfo]: the key, the size and the per-entry error of a
    listing entry. *)
Record ObjectInfo : Type := mkObjectInfo {
  Key : string;
  Size : Z;
  LastModified : Time;
  Err_ : error
}.

(** [minio.UploadInfo] *)
Record UploadInfo : Type := mkUploadInfo {
  UploadInfo_Bucket : string;
  UploadInfo_Key : string;
  UploadInfo_ETag : string;
  UploadInfo_Size : Z
}.

(** [minio.RemoveObjectError] *)
Record RemoveObjectError : Type := mkRemoveObjectError {
  ObjectName : string;
  RemoveObjectError_Err : error
}.

(** [minio.ListObjectsOptions] *)
Record ListObjectsOptions : Type := mkListObjectsOptions {
  Prefix : string;
  Recursive : bool
}.

(** [minio.CopySrcOptions] *)
Record CopySrcOptions : Type := mkCopySrcOptions {
  CopySrc_Bucket : string;
  CopySrc_Object : string;
  CopySrc_VersionID : string
}.

(** [minio.CopyDestOptions]: destination, user metadata and tags with
    their replace flags, and the requested server-side encryption. *)
Record CopyDestOptions : Type := mkCopyDestOptions {
  CopyDest_Bucket : string;
  CopyDest_Object : string;
  CopyDest_Encryption : option string;
  CopyDest_UserMetadata : list (string * string);
  CopyDest_ReplaceMetadata : bool;
  CopyDest_UserTags : list (string * string);
  CopyDest_ReplaceTags : bool
}.

(** Option structs that miniox only forwards. *)
Record GetObjectOptions : Type := mkGetObjectOptions {
  GetObject_VersionID : string
}.
Abbreviation StatObjectOptions := GetObjectOptions.

Record PutObjectOptions : Type := mkPutObjectOptions {
  ContentType : string;
  PutObject_UserMetadata : list (string * string)
}.

Record RemoveObjectOptions : Type := mkRemoveObjectOptions {
  RemoveObject_VersionID : string;
  ForceDelete : bool
}.

Record RemoveObjectsOptions : Type := mkRemoveObjectsOptions {
  GovernanceBypass : bool
}.

Record TaggingOptions : Type := mkTaggingOptions {
  Tagging_VersionID : string
}.

Record PutObjectRetentionOptions : Type := mkPutObjectRetentionOptions {
  Retention_Mode : option string;
  RetainUntilDate : option Time;
  Retention_VersionID : string
}.

Record LegalHoldOptions : Type := mkLegalHoldOptions {
  LegalHold_VersionID : string;
  LegalHold_Status : option string
}.

Record SelectObjectOptions : Type := mkSelectObjectOptions {
  Expression : string
}.

Abbreviation Tags := (list (string * string)).
Abbreviation Values := (list (string * list string)).
Abbreviation URL := string.

(** A [*minio.PostPolicy] is the sequence of setter calls applied to
    [minio.NewPostPolicy()], in call order. *)
Inductive PolicySetter : Type :=
  | SetBucket (bucket : string)
  | SetKey (key : string)
  | SetExpires (t : Time)
  | SetContentType (contentType : string)
  | SetContentLengthRange (lo hi : Z).
Abbreviation PostPolicy := (list PolicySetter).

(** The zero values used by the source. *)
Definition ObjectInfo_zero : ObjectInfo := mkObjectInfo "" 0 0 None.
Definition UploadInfo_zero : UploadInfo := mkUploadInfo "" "" "" 0.
Definition StatObjectOptions_zero : StatObjectOptions := mkGetObjectOptions "".
Definition PutObjectOptions_zero : PutObjectOptions := mkPutObjectOptions "" [].
Definition RemoveObjectsOptions_zero : RemoveObjectsOptions :=
  mkRemoveObjectsOptions false.

(** The calls miniox makes on [*minio.Client], each indexed by the type of
    what the call returns.  A channel is modelled by the finite list of the
    values it delivers before it is closed; an [io.Reader] by the bytes it
    yields ([None] is the nil reader).  [Now] is [time.Now()]. *)
Inductive Call : Type -> Type :=
  | StatObject (bucket object : string) (opts : StatObjectOptions)
      : Call (ObjectInfo * error)
  | GetObject (bucket object : string) (opts : GetObjectOptions)
      : Call (option string * error)
  | PutObject (bucket object : string) (reader : option string)
      (objectSize : Z) (opts : PutObjectOptions)
      : Call (UploadInfo * error)
  | RemoveObject (bucket object : string) (opts : RemoveObjectOptions)
      : Call error
  | ListObjects (bucket : string) (opts : ListObjectsOptions)
      : Call (list ObjectInfo)
  | RemoveObjects (bucket : string) (objectsCh : list ObjectInfo)
      (opts : RemoveObjectsOptions)
      : Call (list RemoveObjectError)
  | CopyObject (dst : CopyDestOptions) (src : CopySrcOptions)
      : Call (UploadInfo * error)
  | ComposeObject (dst : CopyDestOptions) (srcs : list CopySrcOptions)
      : Call (UploadInfo * error)
  | GetObjectTagging (bucket object : string) (opts : TaggingOptions)
      : Call (option Tags * error)
  | PutObjectTagging (bucket object : string) (otags : option Tags)
      (opts : TaggingOptions)
      : Call error
  | RemoveObjectTagging (bucket object : string) (opts : TaggingOptions)
      : Call error
  | GetObjectRetention (bucket object versionID : string)
      : Call (option string * option Time * error)
  | PutObjectRetention (bucket object : string)
      (opts : PutObjectRetentionOptions)
      : Call error
  | GetObjectLegalHold (bucket object : string) (opts : LegalHoldOptions)
      : Call (option string * error)
  | PutObjectLegalHold (bucket object : string) (opts : LegalHoldOptions)
      : Call error
  | SelectObjectContent (bucket object : string) (opts : SelectObjectOptions)
      : Call (option string * error)
  | PresignedGetObject (bucket object : string) (expiry : Duration)
      (reqParams : option Values)
      : Call (option URL * error)
  | PresignedPutObject (bucket object : string) (expiry : Duration)
      : Call (option URL * error)
  | PresignedHeadObject (bucket object : string) (expiry : Duration)
      (reqParams : option Values)
      : Call (option URL * error)
  | PresignedPostPolicy (policy : PostPolicy)
      : Call (option URL * list (string * string) * error)
  | Now : Call Time.

End Minio.

(** ** Programs over the collaborator *)

(** A miniox operation is a finite tree: it either returns, or makes one call
    and continues with what the call returned. *)
Inductive Prog (A : Type) : Type :=
  | Ret (a : A)
  | Vis {R : Type} (e : Minio.Call R) (k : R -> Prog A).
Arguments Ret {A} a.
Arguments Vis {A R} e k.

Fixpoint bind {A B : Type} (p : Prog A) (f : A -> Prog B) : Prog B :=
  match p with
  | Ret a => f a
  | Vis e k => Vis e (fun r => bind (k r) f)
  end.

#[global] Instance Prog_ret : MRet Prog := @Ret.
#[global] Instance Prog_bind : MBind Prog := fun A B f p => bind p f.

(** One call, returning its result. *)
Definition call {R : Type} (e : Minio.Call R) : Prog R := Vis e Ret.

(** A request in the log of an execution. *)
Record Request : Type := Req { Req_type : Type; Req_call : Minio.Call Req_type }.
Arguments Req {Req_type} Req_call.

(** A collaborator with state [St]: how it answers each call. *)
Definition Collaborator (St : Type) : Type :=
  forall R : Type, Minio.Call R -> St -> R * St.

(** Running a program against a collaborator gives the returned value, the
    collaborator's final state and the calls that were made, in order. *)
Fixpoint exec {St A : Type} (h : Collaborator St) (p : Prog A) (s : St)
  : A * St * list Request :=
  match p with
  | Ret a => (a, s, [])
  | Vis e k =>
      let '(r, s1) := h _ e s in
      let '(a, s2, log) := exec h (k r) s1 in
      (a, s2, Req e :: log)
  end.

(** A program that returns without calling the collaborator. *)
Definition silent {A : Type} (p : Prog A) (a : A) : Prop := p = Ret a.

(** ** The operations of miniox *)

Section Operations.

Variable os : Filepath.GOOS.

#[local] Abbreviation ValidatePath := (ValidatePath os).
#[local] Abbreviation buildPath := (buildPath os).
#[local] Abbreviation stripBasePath := (stripBasePath os).

(** [info.Key = c.stripBasePath(info.Key)] *)
Definition ObjectInfo_stripKey (c : Client) (info : Minio.ObjectInfo)
  : Minio.ObjectInfo :=
  Minio.mkObjectInfo (stripBasePath c (Minio.Key info)) (Minio.Size info)
    (Minio.LastModified info) (Minio.Err_ info).

(** [uploadInfo.Key = c.stripBasePath(uploadInfo.Key)] *)
Definition UploadInfo_stripKey (c : Client) (u : Minio.UploadInfo)
  : Minio.UploadInfo :=
  Minio.mkUploadInfo (Minio.UploadInfo_Bucket u)
    (stripBasePath c (Minio.UploadInfo_Key u))
    (Minio.UploadInfo_ETag u) (Minio.UploadInfo_Size u).

(** *** objects.go *)

Definition StatObject (c : Client) (objectPath : string)
    (opts : Minio.StatObjectOptions) : Prog (Minio.ObjectInfo * error) :=
  match ValidatePath c objectPath with
  | Some err => Ret (Minio.ObjectInfo_zero, Some err)
  | None =>
      let fullPath := buildPath c objectPath in
      '(info, err) ← call (Minio.StatObject (bucketName c) fullPath opts);
      match err with
      | Some _ => Ret (info, err)
      | None => Ret (ObjectInfo_stripKey c info, None)
      end
  end.

Definition GetObject (c : Client) (objectPath : string)
    (opts : Minio.GetObjectOptions) : Prog (option string * error) :=
  match ValidatePath c objectPath with
  | Some err => Ret (None, Some err)
  | None =>
      let fullPath := buildPath c objectPath in
      call (Minio.GetObject (bucketName c) fullPath opts)
  end.

Definition PutObject (c : Client) (objectPath : string)
    (reader : option string) (objectSize : Z) (opts : Minio.PutObjectOptions)
  : Prog (Minio.UploadInfo * error) :=
  match ValidatePath c objectPath with
  | Some err => Ret (Minio.UploadInfo_zero, Some err)
  | None =>
      let fullPath := buildPath c objectPath in
      '(uploadInfo, err) ←
        call (Minio.PutObject (bucketName c) fullPath reader objectSize opts);
      match err with
      | Some _ => Ret (uploadInfo, err)
      | None => Ret (UploadInfo_stripKey c uploadInfo, None)
      end
  end.

Definition RemoveObject (c : Client) (objectPath : string)
    (opts : Minio.RemoveObjectOptions) : Prog error :=
  match ValidatePath c objectPath with
  | Some err => Ret (Some err)
  | None =>
      let fullPath := buildPath c objectPath in
      call (Minio.RemoveObject (bucketName c) fullPath opts)
  end.

(** The relay of [ListObjects]: entries without an error get their key
    stripped, entries with an error pass through. *)
Definition ListObjects_relay (c : Client) (objectInfo : Minio.ObjectInfo)
  : Minio.ObjectInfo :=
  match Minio.Err_ objectInfo with
  | None => ObjectInfo_stripKey c objectInfo
  | Some _ => objectInfo
  end.

(** [ListObjects] returns a channel: the list of what it delivers. *)
Definition ListObjects (c : Client) (prefix : string) (recursive : bool)
  : Prog (list Minio.ObjectInfo) :=
  match (if negb (String.eqb prefix "") then ValidatePath c prefix else None) with
  | Some err => Ret [Minio.mkObjectInfo "" 0 0 (Some err)]
  | None =>
      let fullPrefix := buildPath c prefix in
      let opts := Minio.mkListObjectsOptions fullPrefix recursive in
      objectCh ← call (Minio.ListObjects (bucketName c) opts);
      Ret (map (ListObjects_relay c) objectCh)
  end.

Definition CopyObject (c : Client) (destObjectPath srcObjectPath : string)
    (opts : Minio.CopyDestOptions) : Prog (Minio.UploadInfo * error) :=
  match ValidatePath c destObjectPath with
  | Some err => Ret (Minio.UploadInfo_zero, Some err)
  | None =>
  match ValidatePath c srcObjectPath with
  | Some err => Ret (Minio.UploadInfo_zero, Some err)
  | None =>
      let fullDestPath := buildPath c destObjectPath in
      let fullSrcPath := buildPath c srcObjectPath in
      let srcOpts := Minio.mkCopySrcOptions (bucketName c) fullSrcPath "" in
      '(uploadInfo, err) ←
        call (Minio.CopyObject
                (Minio.mkCopyDestOptions (bucketName c) fullDestPath
                   None [] false [] false)
                srcOpts);
      match err with
      | Some _ => Ret (uploadInfo, err)
      | None => Ret (UploadInfo_stripKey c uploadInfo, None)
      end
  end
  end.

(** *** Tagging, retention, legal hold and select *)

Definition GetObjectTagging (c : Client) (objectPath : string)
    (opts : Minio.TaggingOptions) : Prog (option Minio.Tags * error) :=
  match ValidatePath c objectPath with
  | Some err => Ret (None, Some err)
  | None =>
      let fullPath := buildPath c objectPath in
      call (Minio.GetObjectTagging (bucketName c) fullPath opts)
  end.

Definition PutObjectTagging (c : Client) (objectPath : string)
    (objectTags : option Minio.Tags) (opts : Minio.TaggingOptions)
  : Prog error :=
  match ValidatePath c objectPath with
  | Some err => Ret (Some err)
  | None =>
      let fullPath := buildPath c objectPath in
      call (Minio.PutObjectTagging (bucketName c) fullPath objectTags opts)
  end.

Definition RemoveObjectTagging (c : Client) (objectPath : string)
    (opts : Minio.TaggingOptions) : Prog error :=
  match ValidatePath c objectPath with
  | Some err => Ret (Some err)
  | None =>
      let fullPath := buildPath c objectPath in
      call (Minio.RemoveObjectTagging (bucketName c) fullPath opts)
  end.

Definition GetObjectRetention (c : Client) (objectPath versionID : string)
  : Prog (option string * option Minio.Time * error) :=
  match ValidatePath c objectPath with
  | Some err => Ret (None, None, Some err)
  | None =>
      let fullPath := buildPath c objectPath in
      call (Minio.GetObjectRetention (bucketName c) fullPath versionID)
  end.

Definition PutObjectRetention (c : Client) (objectPath : string)
    (opts : Minio.PutObjectRetentionOptions) : Prog error :=
  match ValidatePath c objectPath with
  | Some err => Ret (Some err)
  | None =>
      let fullPath := buildPath c objectPath in
      call (Minio.PutObjectRetention (bucketName c) fullPath opts)
  end.

Definition GetObjectLegalHold (c : Client) (objectPath : string)
    (opts : Minio.LegalHoldOptions) : Prog (option string * error) :=
  match ValidatePath c objectPath with
  | Some err => Ret (None, Some err)
  | None =>
      let fullPath := buildPath c objectPath in
      call (Minio.GetObjectLegalHold (bucketName c) fullPath opts)
  end.

Definition PutObjectLegalHold (c : Client) (objectPath : string)
    (opts : Minio.LegalHoldOptions) : Prog error :=
  match ValidatePath c objectPath with
  | Some err => Ret (Some err)
  | None =>
      let fullPath := buildPath c objectPath in
      call (Minio.PutObjectLegalHold (bucketName c) fullPath opts)
  end.

(** [SelectObjectContent] does not validate the path: "We don't validate
    path here as SelectObjectContent might work with special paths and we
    want to maintain compatibility with the underlying MinIO client". *)
Definition SelectObjectContent (c : Client) (objectPath : string)
    (opts : Minio.SelectObjectOptions) : Prog (option string * error) :=
  let fullPath := buildPath c objectPath in
  call (Minio.SelectObjectContent (bucketName c) fullPath opts).

(** *** urls.go *)

Definition GetPresignedURL (c : Client) (objectPath : string)
    (expiry : Minio.Duration) : Prog (option Minio.URL * error) :=
  match ValidatePath c objectPath with
  | Some err => Ret (None, Some err)
  | None =>
      let fullPath := buildPath c objectPath in
      call (Minio.PresignedGetObject (bucketName c) fullPath expiry None)
  end.

Definition GetPresignedURLWithParams (c : Client) (objectPath : string)
    (expiry : Minio.Duration) (reqParams : option Minio.Values)
  : Prog (option Minio.URL * error) :=
  match ValidatePath c objectPath with
  | Some err => Ret (None, Some err)
  | None =>
      let fullPath := buildPath c objectPath in
      call (Minio.PresignedGetObject (bucketName c) fullPath expiry reqParams)
  end.

Definition GetPresignedPutURL (c : Client) (objectPath : string)
    (expiry : Minio.Duration) : Prog (option Minio.URL * error) :=
  match ValidatePath c objectPath with
  | Some err => Ret (None, Some err)
  | None =>
      let fullPath := buildPath c objectPath in
      call (Minio.PresignedPutObject (bucketName c) fullPath expiry)
  end.

(** The policy already carries its key; no path is taken. *)
Definition GetPresignedPostPolicy (c : Client) (policy : Minio.PostPolicy)
  : Prog (option Minio.URL * list (string * string) * error) :=
  call (Minio.PresignedPostPolicy policy).

Section PublicURL.

(** [url.Parse], a pure function of the standard library. *)
Variable url_Parse : string -> option Minio.URL * error.

(** [GetPublicURL] talks to nobody; the configuration is checked before
    the path. *)
Definition GetPublicURL (c : Client) (objectPath : string)
  : option Minio.URL * error :=
  if String.eqb (publicBaseURL c) "" then (None, Some PublicURLNotConfigured)
  else
    match ValidatePath c objectPath with
    | Some err => (None, Some err)
    | None =>
        let fullPath := buildPath c objectPath in
        let baseURL := Strings.TrimSuffix (publicBaseURL c) "/" in
        let publicURLString :=
          baseURL +:+ "/" +:+ bucketName c +:+ "/" +:+ fullPath in
        url_Parse publicURLString
    end.

End PublicURL.

(** The loop of [ComposeObject] over the sources: those of the configured
    bucket are validated and get the prefix applied, the others are left
    as they are.  The first invalid one ends the loop. *)
Fixpoint ComposeObject_sources (c : Client)
    (srcObjects : list Minio.CopySrcOptions)
  : list Minio.CopySrcOptions * error :=
  match srcObjects with
  | [] => ([], None)
  | src :: rest =>
      if String.eqb (Minio.CopySrc_Bucket src) (bucketName c) then
        match ValidatePath c (Minio.CopySrc_Object src) with
        | Some err =>
            (srcObjects, Some (InvalidSourcePath (Minio.CopySrc_Object src) err))
        | None =>
            let src' :=
              Minio.mkCopySrcOptions (Minio.CopySrc_Bucket src)
                (buildPath c (Minio.CopySrc_Object src))
                (Minio.CopySrc_VersionID src) in
            let '(rest', err) := ComposeObject_sources c rest in
            (src' :: rest', err)
        end
      else
        let '(rest', err) := ComposeObject_sources c rest in
        (src :: rest', err)
  end.

(** [opts.Bucket = c.bucketName; opts.Object = fullDestPath] *)
Definition CopyDestOptions_setDest (opts : Minio.CopyDestOptions)
    (bucket object : string) : Minio.CopyDestOptions :=
  Minio.mkCopyDestOptions bucket object
    (Minio.CopyDest_Encryption opts) (Minio.CopyDest_UserMetadata opts)
    (Minio.CopyDest_ReplaceMetadata opts) (Minio.CopyDest_UserTags opts)
    (Minio.CopyDest_ReplaceTags opts).

Definition ComposeObject (c : Client) (destObjectPath : string)
    (srcObjects : list Minio.CopySrcOptions) (opts : Minio.CopyDestOptions)
  : Prog (Minio.UploadInfo * error) :=
  match ValidatePath c destObjectPath with
  | Some err => Ret (Minio.UploadInfo_zero, Some err)
  | None =>
      let fullDestPath := buildPath c destObjectPath in
      match ComposeObject_sources c srcObjects with
      | (_, Some err) => Ret (Minio.UploadInfo_zero, Some err)
      | (srcObjects', None) =>
          let opts' := CopyDestOptions_setDest opts (bucketName c) fullDestPath in
          '(uploadInfo, err) ← call (Minio.ComposeObject opts' srcObjects');
          match err with
          | Some _ => Ret (uploadInfo, err)
          | None => Ret (UploadInfo_stripKey c uploadInfo, None)
          end
      end
  end.

(** Aliases kept for consistency with the MinIO naming. *)
Definition PresignedGetObject (c : Client) (objectPath : string)
    (expiry : Minio.Duration) (reqParams : option Minio.Values)
  : Prog (option Minio.URL * error) :=
  GetPresignedURLWithParams c objectPath expiry reqParams.

Definition PresignedPutObject (c : Client) (objectPath : string)
    (expiry : Minio.Duration) : Prog (option Minio.URL * error) :=
  GetPresignedPutURL c objectPath expiry.

Definition PresignedHeadObject (c : Client) (objectPath : string)
    (expiry : Minio.Duration) (reqParams : option Minio.Values)
  : Prog (option Minio.URL * error) :=
  match ValidatePath c objectPath with
  | Some err => Ret (None, Some err)
  | None =>
      let fullPath := buildPath c objectPath in
      call (Minio.PresignedHeadObject (bucketName c) fullPath expiry reqParams)
  end.

Definition PresignedPostPolicyForUpload (c : Client) (objectPath : string)
    (expiry : Minio.Duration) (maxSize : Z)
  : Prog (option Minio.URL * list (string * string) * error) :=
  match ValidatePath c objectPath with
  | Some err => Ret (None, [], Some err)
  | None =>
      let fullPath := buildPath c objectPath in
      now ← call Minio.Now;
      let policy :=
        [Minio.SetBucket (bucketName c); Minio.SetKey fullPath;
         Minio.SetExpires (now + expiry)%Z]
        ++ (if (0 <? maxSize)%Z then [Minio.SetContentLengthRange 1 maxSize]
            else []) in
      call (Minio.PresignedPostPolicy policy)
  end.

Definition PresignedPostPolicyWithConditions (c : Client)
    (objectPath : string) (expiry : Minio.Duration) (contentType : string)
    (maxSize : Z)
  : Prog (option Minio.URL * list (string * string) * error) :=
  match ValidatePath c objectPath with
  | Some err => Ret (None, [], Some err)
  | None =>
      let fullPath := buildPath c objectPath in
      now ← call Minio.Now;
      let policy :=
        [Minio.SetBucket (bucketName c); Minio.SetKey fullPath;
         Minio.SetExpires (now + expiry)%Z]
        ++ (if negb (String.eqb contentType "")
            then [Minio.SetContentType contentType] else [])
        ++ (if (0 <? maxSize)%Z then [Minio.SetContentLengthRange 1 maxSize]
            else []) in
      call (Minio.PresignedPostPolicy policy)
  end.

(** *** Folder emulation *)

Definition FolderExists (c : Client) (folderPath : string)
  : Prog (bool * error) :=
  match ValidatePath c folderPath with
  | Some err => Ret (false, Some err)
  | None =>
      let fullPath := buildPath c folderPath in
      let filePath := fullPath +:+ "/.empty" in
      '(_, err) ←
        call (Minio.StatObject (bucketName c) filePath
                Minio.StatObjectOptions_zero);
      match err with
      | None => Ret (true, None)
      | Some e =>
          if String.eqb (ToErrorResponse_Code e) "NoSuchKey"
          then Ret (false, None)
          else Ret (false, err)
      end
  end.

Definition CreateFolder (c : Client) (folderPath : string) : Prog error :=
  match ValidatePath c folderPath with
  | Some err => Ret (Some err)
  | None =>
      '(exists_, err) ← FolderExists c folderPath;
      if exists_ : bool then Ret None
      else
        match err with
        | Some _ => Ret err
        | None =>
            let fullPath := buildPath c folderPath in
            let filePath := fullPath +:+ "/.empty" in
            '(_, err) ←
              call (Minio.PutObject (bucketName c) filePath None 0
                      Minio.PutObjectOptions_zero);
            Ret err
        end
  end.

(** The loop of [RemoveFolder] over the error channel of the bulk delete:
    the first entry that carries an error ends the call with it. *)
Fixpoint RemoveFolder_errors (errorCh : list Minio.RemoveObjectError)
  : error :=
  match errorCh with
  | [] => None
  | removeErr :: rest =>
      match Minio.RemoveObjectError_Err removeErr with
      | Some e => Some e
      | None => RemoveFolder_errors rest
      end
  end.

Definition RemoveFolder (c : Client) (folderPath : string) : Prog error :=
  match ValidatePath c folderPath with
  | Some err => Ret (Some err)
  | None =>
      let fullPath := buildPath c folderPath in
      let fullPath :=
        if negb (Strings.HasSuffix fullPath "/") then fullPath +:+ "/"
        else fullPath in
      let opts := Minio.mkListObjectsOptions fullPath true in
      objectCh ← call (Minio.ListObjects (bucketName c) opts);
      errorCh ←
        call (Minio.RemoveObjects (bucketName c) objectCh
                Minio.RemoveObjectsOptions_zero);
      Ret (RemoveFolder_errors errorCh)
  end.

(** The path of a listing entry relative to the listing root. *)
Definition ListFolders_relativePath (c : Client) (prefix : string)
    (objectInfo : Minio.ObjectInfo) : string :=
  let relativePath := stripBasePath c (Minio.Key objectInfo) in
  if negb (String.eqb prefix "") then
    let prefixToRemove := Strings.Trim prefix "/" +:+ "/" in
    Strings.TrimPrefix relativePath prefixToRemove
  else relativePath.

(** The loop of [ListFolders] over the listing channel, with the slice
    [folders] and the map [seenFolders] it updates. *)
Fixpoint ListFolders_loop (c : Client) (prefix : string)
    (objectCh : list Minio.ObjectInfo)
    (folders : list string) (seenFolders : gmap string bool)
  : list string * error :=
  match objectCh with
  | [] => (folders, None)
  | objectInfo :: rest =>
      match Minio.Err_ objectInfo with
      | Some e => ([], Some e)
      | None =>
          let relativePath := ListFolders_relativePath c prefix objectInfo in
          let parts := Strings.Split relativePath "/" in
          if (1 <? length parts)%nat
             && negb (String.eqb (parts !!! 0%nat) "")
          then
            let folderName := parts !!! 0%nat in
            if negb (default false (seenFolders !! folderName)) then
              ListFolders_loop c prefix rest (folders ++ [folderName])
                (<[folderName := true]> seenFolders)
            else ListFolders_loop c prefix rest folders seenFolders
          else ListFolders_loop c prefix rest folders seenFolders
      end
  end.

Definition ListFolders (c : Client) (prefix : string)
  : Prog (list string * error) :=
  match (if negb (String.eqb prefix "") then ValidatePath c prefix else None) with
  | Some err => Ret ([], Some err)
  | None =>
      let fullPrefix := buildPath c prefix in
      let fullPrefix :=
        if negb (String.eqb fullPrefix "")
           && negb (Strings.HasSuffix fullPrefix "/")
        then fullPrefix +:+ "/" else fullPrefix in
      let opts := Minio.mkListObjectsOptions fullPrefix false in
      objectCh ← call (Minio.ListObjects (bucketName c) opts);
      Ret (ListFolders_loop c prefix objectCh [] ∅)
  end.

End Operations.

(** ** client.go: construction *)

(** [Config] *)
Record Config : Type := mkConfig {
  Endpoint : string;
  AccessKey : string;
  SecretKey : string;
  UseSSL : bool;
  BucketName : string;
  BaseDirPrefix : string;
  PublicURL : string
}.

(** The errors [New] creates: one [fmt.Errorf] each, the two that wrap the
    error of a call with [%w] carrying it. *)
Inductive NewErr : Type :=
  | ConfigNil
  | EndpointRequired
  | AccessKeyRequired
  | SecretKeyRequired
  | BucketNameRequired
  | CreateClientFailed (cause : Err)
  | BucketCheckFailed (cause : Err)
  | BucketDoesNotExist (bucket : string).

(** [err.Error()] for the errors of [New]. *)
Definition NewErr_Error (e : NewErr) : string :=
  match e with
  | ConfigNil => "config cannot be nil"
  | EndpointRequired => "endpoint is required"
  | AccessKeyRequired => "access key is required"
  | SecretKeyRequired => "secret key is required"
  | BucketNameRequired => "bucket name is required"
  | CreateClientFailed cause => "failed to create MinIO client: " +:+ Error cause
  | BucketCheckFailed cause => "failed to check bucket existence: " +:+ Error cause
  | BucketDoesNotExist bucket => "bucket " +:+ bucket +:+ " does not exist"
  end.

Section Construction.

(** The two calls [New] makes outside the package: [minio.New] (endpoint,
    static credentials, [Secure]) and [BucketExists] on the client it
    returned.  [Handle] is [*minio.Client]. *)
Variable Handle : Type.
Variable minio_New : string -> string -> string -> bool -> Handle * error.
Variable minio_BucketExists : Handle -> string -> bool * error.

(** [New]; a nil [*Config] is [None]. *)
Definition New (config : option Config) : option Client * option NewErr :=
  match config with
  | None => (None, Some ConfigNil)
  | Some config =>
      if String.eqb (Endpoint config) "" then (None, Some EndpointRequired)
      else if String.eqb (AccessKey config) "" then (None, Some AccessKeyRequired)
      else if String.eqb (SecretKey config) "" then (None, Some SecretKeyRequired)
      else if String.eqb (BucketName config) "" then (None, Some BucketNameRequired)
      else
        let '(client, err) :=
          minio_New (Endpoint config) (AccessKey config) (SecretKey config)
            (UseSSL config) in
        match err with
        | Some e => (None, Some (CreateClientFailed e))
        | None =>
            let '(exists_, err) := minio_BucketExists client (BucketName config) in
            match err with
            | Some e => (None, Some (BucketCheckFailed e))
            | None =>
                if negb exists_
                then (None, Some (BucketDoesNotExist (BucketName config)))
                else
                  (Some (mkClient (BucketName config) (BaseDirPrefix config)
                           (PublicURL config)), None)
            end
        end
  end.

End Construction.

(** [GetBucketName], [GetBaseDirPrefix], [GetPublicBaseURL] *)
Definition GetBucketName (c : Client) : string := bucketName c.
Definition GetBaseDirPrefix (c : Client) : string := baseDirPrefix c.
Definition GetPublicBaseURL (c : Client) : string := publicBaseURL c.

(** ** Definitions used to state the properties *)

(** The last byte of a string. *)
Fixpoint last_byte (s : string) : option ascii :=
  match s with
  | EmptyString => None
  | String c EmptyString => Some c
  | String _ r => last_byte r
  end.

(** Bytewise maps, to which [ReplaceAll] on one-byte strings reduces. *)
Fixpoint map_bytes (f : ascii -> ascii) (s : string) : string :=
  match s with
  | EmptyString => EmptyString
  | String c r => String (f c) (map_bytes f r)
  end.

(** What [ToSlash] does to one byte. *)
Definition slash (os : Filepath.GOOS) (c : ascii) : ascii :=
  if Ascii.eqb c (Filepath.Separator os) then "/" else c.

(** The normalization the specification speaks of: separators canonicalized
    to forward slashes, leading and trailing slashes trimmed. *)
Definition normalize (os : Filepath.GOOS) (p : string) : string :=
  Strings.Trim (Filepath.ToSlash os p) "/".

(** A path has a parent-directory segment when one of the pieces between
    its slashes is [".."]. *)
Definition has_dotdot_segment (os : Filepath.GOOS) (p : string) : bool :=
  existsb (String.eqb "..") (Strings.Split (Filepath.ToSlash os p) "/").

(** A path is absolute when it begins with a separator. *)
Definition is_absolute (os : Filepath.GOOS) (p : string) : bool :=
  Strings.HasPrefix (Filepath.ToSlash os p) "/".

(** The key of the marker object of a folder. *)
Definition marker_key (os : Filepath.GOOS) (c : Client) (folderPath : string) : string :=
  buildPath os c folderPath +:+ "/.empty".

(** The stat that [FolderExists] sends. *)
Definition marker_stat (os : Filepath.GOOS) (c : Client) (folderPath : string)
  : Minio.Call (Minio.ObjectInfo * error) :=
  Minio.StatObject (bucketName c) (marker_key os c folderPath)
    Minio.StatObjectOptions_zero.

(** The put that [CreateFolder] sends: a nil reader, size zero. *)
Definition marker_put (os : Filepath.GOOS) (c : Client) (folderPath : string)
  : Minio.Call (Minio.UploadInfo * error) :=
  Minio.PutObject (bucketName c) (marker_key os c folderPath) None 0
    Minio.PutObjectOptions_zero.

(** How [FolderExists] reads the answer to its stat. *)
Definition FolderExists_answer (err : error) : bool * error :=
  match err with
  | None => (true, None)
  | Some e =>
      if String.eqb (ToErrorResponse_Code e) "NoSuchKey" then (false, None)
      else (false, Some e)
  end.

(** The first failure in the error channel of the bulk delete, if any. *)
Definition first_failure (errorCh : list Minio.RemoveObjectError) : error :=
  head (omap Minio.RemoveObjectError_Err errorCh).

(** Each name once, in the order of first occurrence: the head, then the
    first-seen names of the rest without it. *)
Fixpoint first_seen (l : list string) : list string :=
  match l with
  | [] => []
  | x :: r => x :: filter (fun y => y <> x) (first_seen r)
  end.

(** The folder name the loop of [ListFolders] takes from a listing entry:
    the key is stripped of the base prefix and then, for a non-empty
    prefix, of [Trim prefix "/" ++ "/"], the caller's prefix as it was
    passed (without [ToSlash]); what is left splits on ['/'] into more than
    one segment, the first of which is not empty. *)
Definition folder_name (os : Filepath.GOOS) (c : Client) (prefix : string)
    (objectInfo : Minio.ObjectInfo) : option string :=
  let relativePath := stripBasePath os c (Minio.Key objectInfo) in
  let relativePath :=
    if decide (prefix = "") then relativePath
    else Strings.TrimPrefix relativePath (Strings.Trim prefix "/" +:+ "/") in
  match Strings.Split relativePath "/" with
  | first :: _ :: _ => if decide (first = "") then None else Some first
  | _ => None
  end.

(** The first entry of a listing that carries an error, if any. *)
Definition first_listing_error (objectCh : list Minio.ObjectInfo) : error :=
  head (omap Minio.Err_ objectCh).

(** What [ListFolders] makes of a listing: the first error, or the names
    of [folder_name], each once, in first-seen order. *)
Definition folders_of_listing (os : Filepath.GOOS) (c : Client) (prefix : string)
    (objectCh : list Minio.ObjectInfo) : list string * error :=
  match first_listing_error objectCh with
  | Some e => ([], Some e)
  | None => (first_seen (omap (folder_name os c prefix) objectCh), None)
  end.

(** The folder a listing entry gives evidence of in the words of the
    specification: the key stripped of the base prefix and then of the
    caller's relative prefix, a relative path being used in its normalized
    form (separators canonicalized, outer slashes trimmed); what is left
    splits on ['/'] into more than one segment with a non-empty first
    one. *)
Definition folder_name_spec (os : Filepath.GOOS) (c : Client) (prefix : string)
    (objectInfo : Minio.ObjectInfo) : option string :=
  let relativePath := stripBasePath os c (Minio.Key objectInfo) in
  let relativePath :=
    if decide (prefix = "") then relativePath
    else Strings.TrimPrefix relativePath (normalize os prefix +:+ "/") in
  match Strings.Split relativePath "/" with
  | first :: _ :: _ => if decide (first = "") then None else Some first
  | _ => None
  end.

(** What the specification says [ListFolders] makes of a listing. *)
Definition folders_of_listing_spec (os : Filepath.GOOS) (c : Client)
    (prefix : string) (objectCh : list Minio.ObjectInfo) : list string * error :=
  match first_listing_error objectCh with
  | Some e => ([], Some e)
  | None => (first_seen (omap (folder_name_spec os c prefix) objectCh), None)
  end.

(** The prefix [ListFolders] lists: the built key, with one separator after
    it unless it is empty. *)
Definition ListFolders_prefix (os : Filepath.GOOS) (c : Client) (prefix : string)
  : string :=
  if String.eqb (buildPath os c prefix) "" then ""
  else buildPath os c prefix +:+ "/".

(** The first piece of a path between slashes. *)
Definition first_segment (s : string) : string :=
  hd "" (Strings.Split s "/").

(** A collaborator that answers a put or a stat with the key it was asked
    for, and without an error. *)
Definition echoes_put {St : Type} (h : Collaborator St) (s : St)
    (bucket object : string) (reader : option string) (objectSize : Z)
    (opts : Minio.PutObjectOptions) : Prop :=
  let '((u, err), _) :=
    h _ (Minio.PutObject bucket object reader objectSize opts) s in
  err = None /\ Minio.UploadInfo_Key u = object.

Definition echoes_stat {St : Type} (h : Collaborator St) (s : St)
    (bucket object : string) (opts : Minio.StatObjectOptions) : Prop :=
  let '((info, err), _) := h _ (Minio.StatObject bucket object opts) s in
  err = None /\ Minio.Key info = object.

(** What [ComposeObject] does to one source: the object of a source in the
    configured bucket gets the base prefix, any other source is kept. *)
Definition prefixed_source (os : Filepath.GOOS) (c : Client)
    (src : Minio.CopySrcOptions) : Minio.CopySrcOptions :=
  if String.eqb (Minio.CopySrc_Bucket src) (bucketName c) then
    Minio.mkCopySrcOptions (Minio.CopySrc_Bucket src)
      (buildPath os c (Minio.CopySrc_Object src)) (Minio.CopySrc_VersionID src)
  else src.

(** A source [ComposeObject] accepts: of another bucket, or with a valid
    object path. *)
Definition source_ok (os : Filepath.GOOS) (c : Client)
    (src : Minio.CopySrcOptions) : bool :=
  negb (String.eqb (Minio.CopySrc_Bucket src) (bucketName c))
  || bool_decide (ValidatePath os c (Minio.CopySrc_Object src) = None).

(** ** A reference collaborator: an in-memory object store

    Objects are bodies indexed by bucket and key.  A stat of an absent key
    answers with the code [NoSuchKey]; a put stores the body the reader
    yields, and fails when the reader yields fewer bytes than the size
    announced; a listing delivers the keys under the prefix in
    lexicographic order, rolled up to the next separator when it is not
    recursive.  The store does not model the other calls: they are answered
    with [NotImplemented] and leave the store as it is.  That holds for
    [GetObject] too, which minio-go serves lazily (the call returns an
    object and no error even for an absent key, the error comes with the
    first read), something the result of the call does not carry here. *)

Module MemStore.
Import Strings.

Abbreviation Store := (gmap (string * string) string).

Definition NoSuchKey : Err :=
  ErrorResponse "NoSuchKey" "The specified key does not exist.".

Definition NotImplemented : Err :=
  ErrorResponse "NotImplemented" "A header you provided implies functionality that is not implemented.".

Definition stat (st : Store) (bucket object : string) : Minio.ObjectInfo * error :=
  match st !! (bucket, object) with
  | Some body => (Minio.mkObjectInfo object (Z.of_nat (len body)) 0 None, None)
  | None => (Minio.ObjectInfo_zero, Some NoSuchKey)
  end.

(** The body a put stores: what the reader yields, cut at [objectSize] when
    that is not negative. *)
Definition put_body (reader : option string) (objectSize : Z) : string :=
  let data := default "" reader in
  if (objectSize <? 0)%Z then data else slice_to (Z.to_nat objectSize) data.

(** A put of [objectSize] bytes needs a reader that yields that many; a
    negative size asks for all the reader has. *)
Definition put_fits (reader : option string) (objectSize : Z) : bool :=
  (objectSize <? 0)%Z || (objectSize <=? Z.of_nat (len (default "" reader)))%Z.

(** The keys of [bucket] that start with [prefix], sorted. *)
Definition keys_under (st : Store) (bucket prefix : string) : list string :=
  merge_sort String.le
    (omap (fun '((b, k), _) =>
             if String.eqb b bucket && HasPrefix k prefix then Some k else None)
          (map_to_list st)).

(** In a listing that is not recursive, a key with a separator after the
    prefix is reported as the common prefix up to that separator. *)
Definition rollup (prefix key : string) : string :=
  match Split (slice_from (len prefix) key) "/" with
  | first :: _ :: _ => prefix +:+ first +:+ "/"
  | _ => key
  end.

Definition list_objects (st : Store) (bucket : string)
    (opts : Minio.ListObjectsOptions) : list Minio.ObjectInfo :=
  let keys := keys_under st bucket (Minio.Prefix opts) in
  let keys :=
    if Minio.Recursive opts then keys
    else remove_dups (map (rollup (Minio.Prefix opts)) keys) in
  map (fun k => Minio.mkObjectInfo k
                  (Z.of_nat (len (default "" (st !! (bucket, k))))) 0 None)
      keys.

Definition remove_objects (st : Store) (bucket : string)
    (objectsCh : list Minio.ObjectInfo) : Store :=
  foldr (fun o acc => delete (bucket, Minio.Key o) acc) st objectsCh.

Definition serve : Collaborator Store :=
  fun R e st =>
    match e in Minio.Call R return R * Store with
    | Minio.StatObject bucket object _ => (stat st bucket object, st)
    | Minio.GetObject _ _ _ => ((None, Some NotImplemented), st)
    | Minio.PutObject bucket object reader objectSize _ =>
        if put_fits reader objectSize then
          let body := put_body reader objectSize in
          ((Minio.mkUploadInfo bucket object "" (Z.of_nat (len body)), None),
           <[(bucket, object) := body]> st)
        else ((Minio.UploadInfo_zero, Some (OtherError "unexpected EOF")), st)
    | Minio.RemoveObject bucket object _ => (None, delete (bucket, object) st)
    | Minio.ListObjects bucket opts => (list_objects st bucket opts, st)
    | Minio.RemoveObjects bucket objectsCh _ =>
        ([], remove_objects st bucket objectsCh)
    | Minio.CopyObject _ _ => ((Minio.UploadInfo_zero, Some NotImplemented), st)
    | Minio.ComposeObject _ _ => ((Minio.UploadInfo_zero, Some NotImplemented), st)
    | Minio.GetObjectTagging _ _ _ => ((None, Some NotImplemented), st)
    | Minio.PutObjectTagging _ _ _ _ => (Some NotImplemented, st)
    | Minio.RemoveObjectTagging _ _ _ => (Some NotImplemented, st)
    | Minio.GetObjectRetention _ _ _ => ((None, None, Some NotImplemented), st)
    | Minio.PutObjectRetention _ _ _ => (Some NotImplemented, st)
    | Minio.GetObjectLegalHold _ _ _ => ((None, Some NotImplemented), st)
    | Minio.PutObjectLegalHold _ _ _ => (Some NotImplemented, st)
    | Minio.SelectObjectContent _ _ _ => ((None, Some NotImplemented), st)
    | Minio.PresignedGetObject _ _ _ _ => ((None, Some NotImplemented), st)
    | Minio.PresignedPutObject _ _ _ => ((None, Some NotImplemented), st)
    | Minio.PresignedHeadObject _ _ _ _ => ((None, Some NotImplemented), st)
    | Minio.PresignedPostPolicy _ => ((None, [], Some NotImplemented), st)
    | Minio.Now => (0%Z, st)
    end.

End MemStore.

(** The store of the scenario in the specification: an object written at
    ["images/x.png"] without a folder having been created. *)
Definition images_store : MemStore.Store :=
  {[ ("b", "images/x.png") := "PNG" ]}.

(** Objects below a base prefix, with a folder inside a folder. *)
Definition tenant_store : MemStore.Store :=
  {[ ("b", "app-data/docs/a.txt") := "a"; ("b", "app-data/docs/b/c.txt") := "c";
     ("b", "app-data/docs/b/d.txt") := "d"; ("b", "app-data/img/x.png") := "x" ]}.

(** The objects of the listing example. *)
Definition docs_store : MemStore.Store :=
  {[ ("b", "docs/a.txt") := "a"; ("b", "docs/b/c.txt") := "c";
     ("b", "img/x.png") := "x" ]}.

(** * Properties *)

(** ** Facts about the string functions *)

Module StringFacts.
Import Strings.

Lemma eqb_empty_r (s : string) : String.eqb s "" = true <-> s = "".
Proof. apply String.eqb_eq. Qed.

Lemma HasPrefix_app (p s : string) : HasPrefix (p +:+ s) p = true.
Proof.
  induction p as [|a p IH]; simpl; [done|].
  by rewrite Ascii.eqb_refl.
Qed.

Lemma slice_from_app (p s : string) : slice_from (len p) (p +:+ s) = s.
Proof. induction p as [|a p IH]; simpl; [by destruct s|done]. Qed.

Lemma TrimPrefix_app (p s : string) : TrimPrefix (p +:+ s) p = s.
Proof. unfold TrimPrefix. by rewrite HasPrefix_app, slice_from_app. Qed.

Lemma HasPrefix_len (s p : string) :
  HasPrefix s p = true -> (len p <= len s)%nat.
Proof.
  revert s; induction p as [|a p IH]; intros [|c s]; simpl; try lia; try done.
  destruct (Ascii.eqb c a); [|done]. intros H%IH. unfold len in *. lia.
Qed.

Lemma len_app (a b : string) : len (a +:+ b) = (len a + len b)%nat.
Proof. induction a as [|c a IH]; simpl; [done|]. unfold len in *. lia. Qed.

Lemma append_cons (x : ascii) (a b : string) :
  String x a +:+ b = String x (a +:+ b).
Proof. reflexivity. Qed.

Lemma append_assoc (a b c : string) : (a +:+ b) +:+ c = a +:+ b +:+ c.
Proof. induction a as [|x a IH]; [done|]. by rewrite !append_cons, IH. Qed.

Lemma HasPrefix_longer (p t : string) :
  t <> "" -> HasPrefix p (p +:+ t) = false.
Proof.
  intros Ht. destruct (HasPrefix p (p +:+ t)) eqn:E; [|done].
  apply HasPrefix_len in E. rewrite len_app in E.
  destruct t; [done|]. simpl in E. lia.
Qed.

Lemma HasPrefix_spec (s p : string) :
  HasPrefix s p = true <-> exists t, s = p +:+ t.
Proof.
  split.
  - revert s; induction p as [|a p IH]; intros s; simpl.
    + by exists s.
    + destruct s as [|c s]; [done|].
      destruct (Ascii.eqb_spec c a) as [->|]; [|done].
      intros [t ->]%IH. by exists t.
  - intros [t ->]. apply HasPrefix_app.
Qed.


Lemma last_byte_app (a b : string) :
  b <> "" -> last_byte (a +:+ b) = last_byte b.
Proof.
  intros Hb. induction a as [|c a IH]; [done|].
  change (String c a +:+ b) with (String c (a +:+ b)).
  simpl. rewrite IH. destruct (a +:+ b) eqn:E; [|done].
  destruct a; [|done]. simpl in E. by subst.
Qed.

Lemma slice_from_len (s : string) : slice_from (len s) s = "".
Proof. induction s; simpl; done. Qed.

Lemma HasSuffix_byte (s : string) (c : ascii) :
  HasSuffix s (String c "") = true <-> last_byte s = Some c.
Proof.
  unfold HasSuffix. change (len (String c "")) with 1%nat.
  induction s as [|a s IH]; [done|].
  destruct s as [|b s].
  - simpl. destruct (Ascii.eqb_spec a c) as [->|]; [done|]. split; [done|]. by intros [= ->].
  - change (last_byte (String a (String b s))) with (last_byte (String b s)).
    rewrite <- IH.
    change (len (String a (String b s))) with (S (S (len s))).
    change (len (String b s)) with (S (len s)).
    replace (S (S (len s)) - 1)%nat with (S (S (len s) - 1))%nat by lia.
    done.
Qed.

Lemma HasSuffix_byte_false (s : string) (c : ascii) :
  last_byte s <> Some c -> HasSuffix s (String c "") = false.
Proof.
  intros H. destruct (HasSuffix s (String c "")) eqn:E; [|done].
  by apply HasSuffix_byte in E.
Qed.

(** What [TrimLeft] and [TrimRight] leave at the ends. *)
Lemma TrimLeft_head (s cutset : string) (c : ascii) (r : string) :
  TrimLeft s cutset = String c r -> ContainsByte cutset c = false.
Proof.
  induction s as [|a s IH]; simpl; [done|].
  destruct (ContainsByte cutset a) eqn:E; [done|]. by intros [= <- <-].
Qed.

Lemma TrimLeft_last (s cutset : string) :
  TrimLeft s cutset <> "" -> last_byte (TrimLeft s cutset) = last_byte s.
Proof.
  induction s as [|a s IH]; simpl; [done|].
  destruct (ContainsByte cutset a); [|done].
  intros H. rewrite IH by done. destruct s; [|done]. by simpl in H.
Qed.

Lemma TrimRight_last (s cutset : string) (c : ascii) :
  last_byte (TrimRight s cutset) = Some c -> ContainsByte cutset c = false.
Proof.
  induction s as [|a s IH]; simpl; [done|].
  destruct (TrimRight s cutset) as [|b t] eqn:E.
  - destruct (ContainsByte cutset a) eqn:Ea; simpl; [done|]. by intros [= <-].
  - intros H. apply IH. exact H.
Qed.

Lemma Trim_head (s cutset : string) (c : ascii) (r : string) :
  Trim s cutset = String c r -> ContainsByte cutset c = false.
Proof. apply TrimLeft_head. Qed.

Lemma Trim_last (s cutset : string) (c : ascii) :
  last_byte (Trim s cutset) = Some c -> ContainsByte cutset c = false.
Proof.
  unfold Trim. intros H.
  destruct (TrimLeft (TrimRight s cutset) cutset) eqn:E; [done|].
  rewrite <- E in H. rewrite TrimLeft_last in H by (by rewrite E).
  by apply TrimRight_last in H.
Qed.

Lemma Trim_no_leading_slash (s : string) : HasPrefix (Trim s "/") "/" = false.
Proof.
  destruct (Trim s "/") as [|c r] eqn:E; [done|].
  apply Trim_head in E. simpl in *.
  destruct (Ascii.eqb_spec c "/") as [->|]; done.
Qed.

Lemma Trim_no_trailing_slash (s : string) : HasSuffix (Trim s "/") "/" = false.
Proof.
  apply HasSuffix_byte_false. intros H%Trim_last. done.
Qed.


Lemma ReplaceAll_byte (s : string) (old new : ascii) :
  ReplaceAll s (String old "") (String new "")
  = map_bytes (fun c => if Ascii.eqb c old then new else c) s.
Proof.
  unfold ReplaceAll. induction s as [|c s IH]; [done|].
  simpl. destruct (Ascii.eqb c old); simpl; by rewrite IH.
Qed.

Lemma map_bytes_app f (a b : string) :
  map_bytes f (a +:+ b) = map_bytes f a +:+ map_bytes f b.
Proof. induction a as [|c a IH]; simpl; [done|]. by rewrite IH. Qed.

Lemma map_bytes_TrimLeft f (s cutset : string) :
  map_bytes f s = s -> map_bytes f (TrimLeft s cutset) = TrimLeft s cutset.
Proof.
  induction s as [|c s IH]; simpl; [done|].
  intros [= Hc Hs]. destruct (ContainsByte cutset c); [by apply IH|].
  simpl. by rewrite Hc, Hs.
Qed.

Lemma map_bytes_TrimRight f (s cutset : string) :
  map_bytes f s = s -> map_bytes f (TrimRight s cutset) = TrimRight s cutset.
Proof.
  induction s as [|c s IH]; simpl; [done|].
  intros [= Hc Hs]. specialize (IH Hs).
  destruct (TrimRight s cutset) as [|b t].
  - destruct (ContainsByte cutset c); simpl; [done|]. by rewrite Hc.
  - change (map_bytes f (String c (String b t)))
      with (String (f c) (map_bytes f (String b t))).
    by rewrite Hc, IH.
Qed.

Lemma map_bytes_Trim f (s cutset : string) :
  map_bytes f s = s -> map_bytes f (Trim s cutset) = Trim s cutset.
Proof.
  intros H. unfold Trim. by apply map_bytes_TrimLeft, map_bytes_TrimRight.
Qed.

(** The first piece of a split is a prefix of the string, and a piece
    equal to [".."] shows up as a substring. *)
Lemma Split_slash_cons (c : ascii) (r : string) :
  Split (String c r) "/"
  = if Ascii.eqb c "/" then "" :: Split r "/"
    else match Split r "/" with
         | h :: t => String c h :: t
         | [] => [String c ""]
         end.
Proof. unfold Split. simpl. by destruct (Ascii.eqb c "/"). Qed.

Lemma Split_slash_nonempty (s : string) : Split s "/" <> [].
Proof.
  induction s as [|c s IH]; [done|]. rewrite Split_slash_cons.
  destruct (Ascii.eqb c "/"); [done|]. by destruct (Split s "/").
Qed.

Lemma Split_slash_head (s h : string) (t : list string) :
  Split s "/" = h :: t -> HasPrefix s h = true.
Proof.
  revert h t; induction s as [|c s IH]; intros h t.
  - by intros [= <- <-].
  - rewrite Split_slash_cons. destruct (Ascii.eqb c "/"); [by intros [= <- <-]|].
    destruct (Split s "/") as [|h' t'] eqn:E; intros [= <- <-]; simpl.
    + by rewrite Ascii.eqb_refl.
    + rewrite Ascii.eqb_refl. by eapply IH.
Qed.

Lemma Contains_cons (c : ascii) (s sub : string) :
  Contains s sub = true -> Contains (String c s) sub = true.
Proof. intros H. simpl. rewrite H. by destruct (HasPrefix _ _). Qed.

Lemma Split_dotdot_Contains (s : string) :
  ".." ∈ Split s "/" -> Contains s ".." = true.
Proof.
  induction s as [|c s IH].
  - intros H. apply list_elem_of_singleton in H. done.
  - rewrite Split_slash_cons. destruct (Ascii.eqb c "/").
    + intros H. apply elem_of_cons in H as [H|H]; [done|].
      by apply Contains_cons, IH.
    + destruct (Split s "/") as [|h t] eqn:E.
      { by apply Split_slash_nonempty in E. }
      intros H. apply elem_of_cons in H as [H|H].
      * injection H as <- <-. apply Split_slash_head in E.
        destruct s as [|d s]; [done|]. simpl in E.
        destruct (Ascii.eqb_spec d "."); [subst|done].
        cbn [Contains HasPrefix]. by rewrite !Ascii.eqb_refl.
      * apply Contains_cons, IH. by right.
Qed.

End StringFacts.

(** ** The path namespace *)


Module PathFacts.
Import Strings Filepath StringFacts.


Lemma slash_idem os c : slash os (slash os c) = slash os c.
Proof.
  unfold slash. destruct (Ascii.eqb_spec c (Separator os)) as [->|Hc].
  - by destruct os.
  - by destruct (Ascii.eqb_spec c (Separator os)).
Qed.

Lemma map_bytes_fix f (s : string) :
  (forall c, f c = c) -> map_bytes f s = s.
Proof. intros Hf. induction s as [|c s IH]; simpl; [done|]. by rewrite Hf, IH. Qed.

Lemma ToSlash_map os (s : string) : ToSlash os s = map_bytes (slash os) s.
Proof.
  unfold ToSlash. destruct os; simpl.
  - symmetry. apply map_bytes_fix. intros c. unfold slash. simpl.
    by destruct (Ascii.eqb_spec c "/").
  - apply ReplaceAll_byte.
Qed.

Lemma map_bytes_idem f (s : string) :
  (forall c, f (f c) = f c) -> map_bytes f (map_bytes f s) = map_bytes f s.
Proof. intros Hf. induction s as [|c s IH]; simpl; [done|]. by rewrite Hf, IH. Qed.

Lemma ToSlash_idem os (s : string) : ToSlash os (ToSlash os s) = ToSlash os s.
Proof. rewrite !ToSlash_map. apply map_bytes_idem, slash_idem. Qed.

Lemma ToSlash_app os (a b : string) :
  ToSlash os (a +:+ b) = ToSlash os a +:+ ToSlash os b.
Proof. rewrite !ToSlash_map. apply map_bytes_app. Qed.

Lemma ToSlash_Trim os (s : string) :
  ToSlash os (Trim (ToSlash os s) "/") = Trim (ToSlash os s) "/".
Proof.
  rewrite (ToSlash_map os (Trim _ _)). apply map_bytes_Trim.
  rewrite <- ToSlash_map. apply ToSlash_idem.
Qed.

Lemma ToSlash_slash os : ToSlash os "/" = "/".
Proof. by destruct os. Qed.

Lemma ToSlash_empty os : ToSlash os "" = "".
Proof. by destruct os. Qed.

Lemma ToSlash_leading_slash os (s : string) :
  HasPrefix s "/" = true -> HasPrefix (ToSlash os s) "/" = true.
Proof.
  rewrite ToSlash_map. destruct s as [|c s]; [done|]. simpl.
  destruct (Ascii.eqb_spec c "/") as [->|]; [|done]. intros _.
  unfold slash. by destruct os.
Qed.

(** A built key is stable under [ToSlash]. *)
Lemma buildPath_slashed os c p :
  ToSlash os (buildPath os c p) = buildPath os c p.
Proof.
  unfold buildPath.
  destruct (String.eqb (baseDirPrefix c) "");
    destruct (String.eqb (Trim (ToSlash os p) "/") "");
    rewrite ?ToSlash_app, ?ToSlash_Trim, ?ToSlash_slash, ?ToSlash_empty; done.
Qed.

(** Stripping undoes building, for every path and every base prefix. *)
Lemma stripBasePath_buildPath os c p :
  stripBasePath os c (buildPath os c p) = normalize os p.
Proof.
  unfold stripBasePath. rewrite buildPath_slashed.
  unfold buildPath, normalize.
  destruct (String.eqb_spec (baseDirPrefix c) "") as [Hb|Hb].
  - destruct (String.eqb_spec (Trim (ToSlash os p) "/") "") as [E|E]; done.
  - set (cleanPrefix := Trim (ToSlash os (baseDirPrefix c)) "/").
    set (cleanPath := Trim (ToSlash os p) "/").
    destruct (String.eqb_spec cleanPath "") as [E|E].
    + rewrite E. rewrite HasPrefix_longer by done.
      by rewrite String.eqb_refl.
    + rewrite <- append_assoc. by rewrite HasPrefix_app, TrimPrefix_app.
Qed.

(** The built key never ends with a separator. *)
Lemma buildPath_no_trailing_slash os c p :
  HasSuffix (buildPath os c p) "/" = false.
Proof.
  unfold buildPath.
  destruct (String.eqb_spec (baseDirPrefix c) "") as [Hb|Hb];
    destruct (String.eqb_spec (Trim (ToSlash os p) "/") "") as [E|E];
    try done; try apply Trim_no_trailing_slash.
  apply HasSuffix_byte_false.
  rewrite <- append_assoc, last_byte_app by done. intros H%Trim_last. done.
Qed.

(** The built key has no leading separator when the base prefix is empty
    or has something left after trimming. *)
Lemma buildPath_no_leading_slash os c p :
  baseDirPrefix c = "" \/ Trim (ToSlash os (baseDirPrefix c)) "/" <> "" ->
  HasPrefix (buildPath os c p) "/" = false.
Proof.
  intros Hc. unfold buildPath.
  destruct (String.eqb_spec (baseDirPrefix c) "") as [Hb|Hb];
    destruct (String.eqb_spec (Trim (ToSlash os p) "/") "") as [E|E];
    try done; try apply Trim_no_leading_slash.
  destruct Hc as [?|Hc]; [done|].
  pose proof (Trim_no_leading_slash (ToSlash os (baseDirPrefix c))) as H.
  destruct (Trim (ToSlash os (baseDirPrefix c)) "/") as [|a q]; [done|].
  exact H.
Qed.

(** The policy table of [BuildKey]. *)
Lemma buildPath_table os bucket url :
  buildPath os (mkClient bucket "" url) "" = ""
  /\ buildPath os (mkClient bucket "" url) "a/b" = "a/b"
  /\ buildPath os (mkClient bucket "base" url) "" = "base"
  /\ buildPath os (mkClient bucket "base" url) "a/b" = "base/a/b".
Proof. by destruct os. Qed.

Lemma ValidatePath_empty os c : ValidatePath os c "" = None.
Proof. by destruct os. Qed.

Lemma has_dotdot_segment_Contains os p :
  has_dotdot_segment os p = true -> Contains (ToSlash os p) ".." = true.
Proof.
  unfold has_dotdot_segment. intros H. apply Split_dotdot_Contains.
  apply existsb_exists in H as (x & Hx & E).
  apply String.eqb_eq in E. subst. by apply list_elem_of_In.
Qed.

End PathFacts.

Section PathNamespaceClaims.
Import Strings Filepath StringFacts PathFacts.

(** C1.  For every relative path [p] that has no [".."] segment and is not
    absolute, and for every client (so for every configured base prefix),
    stripping the base prefix from the key built from [p] gives the
    normalization of [p]: separators turned into forward slashes, leading
    and trailing slashes trimmed.  (The equation holds for every path; the
    two hypotheses are the ones the property is stated under.) *)
Theorem stripBasePath_buildPath_roundtrip (os : GOOS) (c : Client) (p : string) :
  has_dotdot_segment os p = false ->
  is_absolute os p = false ->
  stripBasePath os c (buildPath os c p) = normalize os p.
Proof. intros _ _. apply stripBasePath_buildPath. Qed.

Lemma stripBasePath_buildPath_roundtrip_witness :
  stripBasePath unix (mkClient "b" "app-data" "")
    (buildPath unix (mkClient "b" "app-data" "") "documents//hello.txt/")
  = "documents//hello.txt".
Proof.
  apply (stripBasePath_buildPath_roundtrip unix (mkClient "b" "app-data" "")
           "documents//hello.txt/"); reflexivity.
Defined.

(** C3.  [buildPath] at the base prefix ["/"] and the path ["a"]: the prefix
    is not empty, so the branch that joins prefix and path is taken, but
    the prefix trims to the empty string and the key that comes out is
    ["/a"], with a leading separator and a separator after an empty
    component. *)
Theorem buildPath_slash_prefix_leading_separator :
  buildPath unix (mkClient "b" "/" "") "a" = "/a"
  /\ HasPrefix (buildPath unix (mkClient "b" "/" "") "a") "/" = true
  /\ buildPath windows (mkClient "b" "\" "") "a" = "/a".
Proof. by vm_compute. Qed.

(** C8, as stated, fails: ["/../x"] begins with a slash, and [ValidatePath]
    reports it as a traversal, not as an absolute path. *)
Lemma ValidatePath_absolute_dotdot_counterexample :
  HasPrefix "/../x" "/" = true
  /\ ValidatePath unix (mkClient "b" "" "") "/../x" <> Some (AbsolutePathError "/../x")
  /\ ValidatePath unix (mkClient "b" "" "") "/../x" = Some (TraversalError "/../x").
Proof. by vm_compute. Qed.

(** C8, amended.  Every path with a [".."] segment anywhere fails with the
    traversal error; every path that begins with ['/'] fails validation,
    with the absolute-path error when it does not contain [".."]. *)
Theorem ValidatePath_rejects (os : GOOS) (c : Client) (p : string) :
  (has_dotdot_segment os p = true ->
   ValidatePath os c p = Some (TraversalError p))
  /\ (HasPrefix p "/" = true ->
      ValidatePath os c p
      = Some (if Contains (ToSlash os p) ".." then TraversalError p
              else AbsolutePathError p)).
Proof.
  split.
  - intros H%has_dotdot_segment_Contains. unfold ValidatePath. by rewrite H.
  - intros H%(ToSlash_leading_slash os). unfold ValidatePath.
    destruct (Contains (ToSlash os p) ".."); [done|]. by rewrite H.
Qed.

Lemma ValidatePath_rejects_witness :
  ValidatePath unix (mkClient "b" "" "") "a/../b" = Some (TraversalError "a/../b")
  /\ ValidatePath unix (mkClient "b" "" "") "../x" = Some (TraversalError "../x")
  /\ ValidatePath unix (mkClient "b" "" "") "x/y/.." = Some (TraversalError "x/y/..")
  /\ ValidatePath unix (mkClient "b" "" "") "/etc/passwd"
     = Some (AbsolutePathError "/etc/passwd").
Proof.
  split; [|split; [|split]].
  - apply (proj1 (ValidatePath_rejects unix (mkClient "b" "" "") "a/../b")).
    reflexivity.
  - apply (proj1 (ValidatePath_rejects unix (mkClient "b" "" "") "../x")).
    reflexivity.
  - apply (proj1 (ValidatePath_rejects unix (mkClient "b" "" "") "x/y/..")).
    reflexivity.
  - apply (proj2 (ValidatePath_rejects unix (mkClient "b" "" "") "/etc/passwd")).
    reflexivity.
Defined.

(** C10.  [ValidatePath] reports a traversal exactly when the
    slash-canonicalized path contains the two bytes [".."] anywhere; so it
    rejects ["a..b"] and ["notes..txt"], which have no [".."] segment, and a
    path that begins with ['/'] and contains [".."] is a traversal, not an
    absolute path. *)
Theorem ValidatePath_traversal_iff_substring :
  (forall os c p,
     ValidatePath os c p = Some (TraversalError p)
     <-> Contains (ToSlash os p) ".." = true)
  /\ (forall os c,
        has_dotdot_segment os "a..b" = false
        /\ ValidatePath os c "a..b" = Some (TraversalError "a..b")
        /\ has_dotdot_segment os "notes..txt" = false
        /\ ValidatePath os c "notes..txt" = Some (TraversalError "notes..txt"))
  /\ (forall os c p,
        is_absolute os p = true ->
        Contains (ToSlash os p) ".." = true ->
        ValidatePath os c p = Some (TraversalError p)
        /\ ValidatePath os c p <> Some (AbsolutePathError p)).
Proof.
  split; [|split].
  - intros os c p. unfold ValidatePath.
    destruct (Contains (ToSlash os p) ".."); [done|].
    destruct (HasPrefix (ToSlash os p) "/"); split; done.
  - intros os c. by destruct os.
  - intros os c p _ H. unfold ValidatePath. by rewrite H.
Qed.

Lemma ValidatePath_traversal_iff_substring_witness :
  ValidatePath unix (mkClient "b" "" "") "/srv/../etc"
  = Some (TraversalError "/srv/../etc")
  /\ ValidatePath unix (mkClient "b" "" "") "/srv/../etc"
     <> Some (AbsolutePathError "/srv/../etc").
Proof.
  apply (proj2 (proj2 ValidatePath_traversal_iff_substring)
           unix (mkClient "b" "" "") "/srv/../etc"); reflexivity.
Defined.

End PathNamespaceClaims.

(** ** Executions *)

Section ExecFacts.
Context {St : Type} (h : Collaborator St).

Lemma exec_call {R : Type} (e : Minio.Call R) (s : St) :
  exec h (call e) s = let '(r, s1) := h _ e s in (r, s1, [Req e]).
Proof. simpl. by destruct (h R e s). Qed.

Lemma exec_bind {A B : Type} (p : Prog A) (f : A -> Prog B) (s : St) :
  exec h (p ≫= f) s =
  let '(a, s1, l1) := exec h p s in
  let '(b, s2, l2) := exec h (f a) s1 in
  (b, s2, l1 ++ l2).
Proof.
  change (p ≫= f) with (bind p f).
  revert s; induction p as [a|R e k IH]; intros s; simpl.
  - by destruct (exec h (f a) s) as [[b s2] l2].
  - destruct (h R e s) as [r s1]. rewrite IH.
    destruct (exec h (k r) s1) as [[a s2] l1].
    by destruct (exec h (f a) s2) as [[b s3] l2].
Qed.

(** One call followed by a pure continuation. *)
Lemma exec_call_bind {R B : Type} (e : Minio.Call R) (f : R -> Prog B) (s : St) :
  exec h (call e ≫= f) s =
  let '(r, s1) := h _ e s in
  let '(b, s2, l2) := exec h (f r) s1 in
  (b, s2, Req e :: l2).
Proof.
  rewrite exec_bind, exec_call. destruct (h R e s) as [r s1].
  by destruct (exec h (f r) s1) as [[b s2] l2].
Qed.

End ExecFacts.


Example list_objects_flat :
  map Minio.Key
    (MemStore.list_objects docs_store "b" (Minio.mkListObjectsOptions "" true))
  = ["docs/a.txt"; "docs/b/c.txt"; "img/x.png"].
Proof. by vm_compute. Qed.

Example list_objects_rolled :
  map Minio.Key
    (MemStore.list_objects docs_store "b" (Minio.mkListObjectsOptions "" false))
  = ["docs/"; "img/"].
Proof. by vm_compute. Qed.

Example ListFolders_docs_store :
  (exec MemStore.serve (ListFolders Filepath.unix (mkClient "b" "" "") "") docs_store).1.1
  = (["docs"; "img"], None).
Proof. by vm_compute. Qed.

Example RemoveFolder_then_list :
  let c := mkClient "b" "" "" in
  let st : MemStore.Store :=
    {[ ("b", "f/a") := "1"; ("b", "f/b") := "2"; ("b", "f/.empty") := "" ]} in
  let '(err, st1, _) := exec MemStore.serve (RemoveFolder Filepath.unix c "f") st in
  err = None
  /\ (exec MemStore.serve (ListObjects Filepath.unix c "f" true) st1).1.1 = [].
Proof. by vm_compute. Qed.

(** ** The folder emulator *)

Section FolderClaims.
Import Strings Filepath StringFacts PathFacts.


Lemma exec_FolderExists {St : Type} (h : Collaborator St) os c p (s : St) :
  ValidatePath os c p = None ->
  exec h (FolderExists os c p) s =
  let '((_, err), s1) := h _ (marker_stat os c p) s in
  (FolderExists_answer err, s1, [Req (marker_stat os c p)]).
Proof.
  intros Hv. unfold FolderExists. rewrite Hv, exec_call_bind.
  fold (marker_key os c p). fold (marker_stat os c p).
  destruct (h _ (marker_stat os c p) s) as [[info [e|]] s1]; simpl; [|done].
  by destruct (String.eqb (ToErrorResponse_Code e) "NoSuchKey").
Qed.

Lemma exec_CreateFolder {St : Type} (h : Collaborator St) os c p (s : St) :
  ValidatePath os c p = None ->
  exec h (CreateFolder os c p) s =
  let '((_, err), s1) := h _ (marker_stat os c p) s in
  match FolderExists_answer err with
  | (true, _) => (None, s1, [Req (marker_stat os c p)])
  | (false, Some e) => (Some e, s1, [Req (marker_stat os c p)])
  | (false, None) =>
      let '((_, werr), s2) := h _ (marker_put os c p) s1 in
      (werr, s2, [Req (marker_stat os c p); Req (marker_put os c p)])
  end.
Proof.
  intros Hv. unfold CreateFolder. rewrite Hv, exec_bind, exec_FolderExists by done.
  destruct (h _ (marker_stat os c p) s) as [[info err] s1].
  destruct (FolderExists_answer err) as [[|] [e|]]; simpl; try done.
  fold (marker_key os c p). fold (marker_put os c p).
  by destruct (h _ (marker_put os c p) s1) as [[u werr] s2].
Qed.

(** C4.  For a valid path, [FolderExists] sends one stat, for the marker
    object at [buildPath path ++ "/.empty"], and its result is read off the
    answer alone: no error gives [(true, nil)], an error with code
    [NoSuchKey] gives [(false, nil)], any other error is returned with
    [false].  On the in-memory store, a folder whose marker is absent does
    not exist, whatever else the store holds; so ["images"] does not exist
    in a store that holds ["images/x.png"]. *)
Theorem FolderExists_decided_by_marker (os : GOOS) (c : Client) (p : string) :
  ValidatePath os c p = None ->
  (forall (St : Type) (h : Collaborator St) (s : St),
     exec h (FolderExists os c p) s =
     let '((_, err), s1) := h _ (marker_stat os c p) s in
     (match err with
      | None => (true, None)
      | Some e =>
          if String.eqb (ToErrorResponse_Code e) "NoSuchKey" then (false, None)
          else (false, Some e)
      end, s1, [Req (marker_stat os c p)]))
  /\ (forall st : MemStore.Store,
        (exec MemStore.serve (FolderExists os c p) st).1.1
        = (bool_decide (is_Some (st !! (bucketName c, marker_key os c p))), None)).
Proof.
  intros Hv. split.
  - intros St h s. by rewrite exec_FolderExists.
  - intros st. rewrite exec_FolderExists by done. simpl. unfold MemStore.stat.
    by destruct (st !! (bucketName c, marker_key os c p)).
Qed.

Lemma FolderExists_decided_by_marker_witness :
  (exec MemStore.serve (FolderExists unix (mkClient "b" "" "") "images")
     images_store).1.1
  = (false, None).
Proof.
  apply (proj2 (FolderExists_decided_by_marker unix (mkClient "b" "" "") "images"
                  eq_refl) images_store).
Defined.


Lemma RemoveFolder_errors_first (errorCh : list Minio.RemoveObjectError) :
  RemoveFolder_errors errorCh = first_failure errorCh.
Proof.
  unfold first_failure. induction errorCh as [|r rest IH]; [done|].
  simpl. by destruct (Minio.RemoveObjectError_Err r).
Qed.

(** C5.  [RemoveFolder] returns the validation error of an invalid path
    without calling the store.  For a valid path it lists, recursively, the
    prefix [buildPath path ++ "/"] (the built key never ends with a
    separator, so there is exactly one), hands the listing to the bulk
    delete, and returns the first error found in the delete's error channel,
    whatever comes after it; it returns [nil] exactly when no entry carries
    an error. *)
Theorem RemoveFolder_first_failure (os : GOOS) (c : Client) (p : string) :
  (forall e, ValidatePath os c p = Some e -> RemoveFolder os c p = Ret (Some e))
  /\ (ValidatePath os c p = None ->
      forall (St : Type) (h : Collaborator St) (s : St),
        let listing :=
          Minio.ListObjects (bucketName c)
            (Minio.mkListObjectsOptions (buildPath os c p +:+ "/") true) in
        exec h (RemoveFolder os c p) s =
        let '(objectCh, s1) := h _ listing s in
        let delete :=
          Minio.RemoveObjects (bucketName c) objectCh
            Minio.RemoveObjectsOptions_zero in
        let '(errorCh, s2) := h _ delete s1 in
        (first_failure errorCh, s2, [Req listing; Req delete]))
  /\ HasSuffix (buildPath os c p) "/" = false
  /\ (forall pre r rest e,
        Forall (fun x => Minio.RemoveObjectError_Err x = None) pre ->
        Minio.RemoveObjectError_Err r = Some e ->
        first_failure (pre ++ r :: rest) = Some e)
  /\ (forall errorCh,
        first_failure errorCh = None
        <-> Forall (fun x => Minio.RemoveObjectError_Err x = None) errorCh).
Proof.
  split; [|split; [|split; [|split]]].
  - intros e Hv. unfold RemoveFolder. by rewrite Hv.
  - intros Hv St h s listing. unfold RemoveFolder.
    rewrite Hv, buildPath_no_trailing_slash. simpl negb. cbv iota.
    rewrite exec_call_bind. fold listing.
    destruct (h _ listing s) as [objectCh s1].
    rewrite exec_call_bind.
    destruct (h _ (Minio.RemoveObjects _ _ _) s1) as [errorCh s2].
    simpl. by rewrite RemoveFolder_errors_first.
  - apply buildPath_no_trailing_slash.
  - intros pre r rest e Hpre Hr. unfold first_failure.
    induction Hpre as [|x pre Hx _ IH]; simpl.
    + by rewrite Hr.
    + by rewrite Hx.
  - intros errorCh. unfold first_failure.
    induction errorCh as [|x l IH]; simpl.
    + split; [by constructor|done].
    + destruct (Minio.RemoveObjectError_Err x) eqn:E; simpl.
      * split; [done|]. intros H. apply Forall_cons in H as [H _]. congruence.
      * rewrite IH. split; [by constructor|]. by intros [_ H]%Forall_cons.
Qed.

Lemma RemoveFolder_first_failure_witness :
  RemoveFolder unix (mkClient "b" "" "") "../f" = Ret (Some (TraversalError "../f"))
  /\ (exec MemStore.serve (RemoveFolder unix (mkClient "b" "" "") "docs")
        docs_store).2
     = [Req (Minio.ListObjects "b" (Minio.mkListObjectsOptions "docs/" true));
        Req (Minio.RemoveObjects "b"
               [Minio.mkObjectInfo "docs/a.txt" 1 0 None;
                Minio.mkObjectInfo "docs/b/c.txt" 1 0 None]
               Minio.RemoveObjectsOptions_zero)]
  /\ first_failure
       [Minio.mkRemoveObjectError "f/a" None;
        Minio.mkRemoveObjectError "f/b" (Some (OtherError "denied"));
        Minio.mkRemoveObjectError "f/c" (Some (OtherError "later"))]
     = Some (OtherError "denied").
Proof.
  pose proof (RemoveFolder_first_failure unix (mkClient "b" "" "") "../f") as H1.
  pose proof (RemoveFolder_first_failure unix (mkClient "b" "" "") "docs") as H2.
  split; [|split].
  - apply (proj1 H1). reflexivity.
  - rewrite (proj1 (proj2 H2) eq_refl _ MemStore.serve docs_store). by vm_compute.
  - apply (proj1 (proj2 (proj2 (proj2 H2)))
             [Minio.mkRemoveObjectError "f/a" None]
             (Minio.mkRemoveObjectError "f/b" (Some (OtherError "denied")))
             [Minio.mkRemoveObjectError "f/c" (Some (OtherError "later"))]).
    + by repeat constructor.
    + reflexivity.
Defined.

(** C6.  For a valid path, [CreateFolder] first sends the stat of
    [FolderExists].  When the marker is there it returns [nil] and sends
    nothing else; when the stat fails with an error other than [NoSuchKey]
    it returns that error and sends nothing else; only on [NoSuchKey] does it
    put a zero-length object at the marker key.  On the in-memory store the
    first call succeeds, and a second call in sequence succeeds too, sends
    the stat only, and leaves the store (so the marker's content) as it
    is. *)
Theorem CreateFolder_idempotent (os : GOOS) (c : Client) (p : string) :
  ValidatePath os c p = None ->
  (forall (St : Type) (h : Collaborator St) (s : St),
     exec h (CreateFolder os c p) s =
     let '((_, err), s1) := h _ (marker_stat os c p) s in
     match err with
     | None => (None, s1, [Req (marker_stat os c p)])
     | Some e =>
         if String.eqb (ToErrorResponse_Code e) "NoSuchKey" then
           let '((_, werr), s2) := h _ (marker_put os c p) s1 in
           (werr, s2, [Req (marker_stat os c p); Req (marker_put os c p)])
         else (Some e, s1, [Req (marker_stat os c p)])
     end)
  /\ (forall st : MemStore.Store,
        let '(err1, st1, _) := exec MemStore.serve (CreateFolder os c p) st in
        err1 = None
        /\ st1 !! (bucketName c, marker_key os c p)
           = Some (default "" (st !! (bucketName c, marker_key os c p)))
        /\ exec MemStore.serve (CreateFolder os c p) st1
           = (None, st1, [Req (marker_stat os c p)])).
Proof.
  intros Hv. split.
  - intros St h s. rewrite exec_CreateFolder by done.
    destruct (h _ (marker_stat os c p) s) as [[info [e|]] s1]; simpl; [|done].
    by destruct (String.eqb (ToErrorResponse_Code e) "NoSuchKey").
  - intros st. rewrite exec_CreateFolder by done. simpl. unfold MemStore.stat.
    destruct (st !! (bucketName c, marker_key os c p)) as [body|] eqn:E; simpl.
    + split; [done|]. split; [done|].
      rewrite exec_CreateFolder by done. simpl. unfold MemStore.stat.
      by rewrite E.
    + split; [done|]. split; [by rewrite lookup_insert_eq|].
      rewrite exec_CreateFolder by done. simpl. unfold MemStore.stat.
      by rewrite lookup_insert_eq.
Qed.

Lemma CreateFolder_idempotent_witness :
  let c := mkClient "b" "app-data" "" in
  let '(err1, st1, _) := exec MemStore.serve (CreateFolder unix c "images") images_store in
  err1 = None
  /\ st1 !! ("b", "app-data/images/.empty") = Some ""
  /\ exec MemStore.serve (CreateFolder unix c "images") st1
     = (None, st1, [Req (marker_stat unix c "images")]).
Proof.
  exact (proj2 (CreateFolder_idempotent unix (mkClient "b" "app-data" "") "images"
                  eq_refl) images_store).
Defined.

End FolderClaims.

(** ** Listing folders *)


Section ListFoldersClaims.
Import Strings Filepath StringFacts PathFacts.

Lemma first_seen_elem (l : list string) (x : string) :
  x ∈ first_seen l <-> x ∈ l.
Proof.
  induction l as [|a l IH]; simpl; [done|].
  rewrite !elem_of_cons, list_elem_of_filter, IH.
  destruct (decide (x = a)); intuition (subst; auto; congruence).
Qed.

Lemma first_seen_NoDup (l : list string) : NoDup (first_seen l).
Proof.
  induction l as [|a l IH]; simpl; constructor.
  - rewrite list_elem_of_filter. intuition (subst; auto; congruence).
  - by apply NoDup_filter.
Qed.

Lemma first_seen_snoc (l : list string) (x : string) :
  first_seen (l ++ [x])
  = if decide (x ∈ l) then first_seen l else first_seen l ++ [x].
Proof.
  induction l as [|a l IH]; simpl; [done|].
  rewrite IH. destruct (decide (x ∈ l)) as [Hx|Hx].
  - rewrite decide_True by (by right). done.
  - rewrite filter_app. simpl. destruct (decide (x = a)) as [->|Hne].
    + rewrite decide_True by (by left). rewrite filter_cons_False by intuition (subst; auto; congruence).
      simpl. by rewrite app_nil_r.
    + rewrite decide_False by (rewrite elem_of_cons; intuition (subst; auto; congruence)).
      by rewrite filter_cons_True.
Qed.

Lemma filter_fresh_snoc (folders fs : list string) (x : string) :
  filter (fun y => y ∉ folders ++ [x]) fs
  = filter (fun y => y ∉ folders) (filter (fun y => y <> x) fs).
Proof.
  rewrite list_filter_filter. apply list_filter_iff. intros y.
  rewrite elem_of_app, list_elem_of_singleton. intuition (subst; auto; congruence).
Qed.

Lemma filter_fresh_seen (folders fs : list string) (x : string) :
  x ∈ folders ->
  filter (fun y => y ∉ folders) (filter (fun y => y <> x) fs)
  = filter (fun y => y ∉ folders) fs.
Proof.
  intros Hx. rewrite list_filter_filter. apply list_filter_iff. intros y.
  intuition (subst; auto; congruence).
Qed.

(** The test of the loop on the pieces of the relative path is the test of
    [folder_name]. *)
Lemma ListFolders_relativePath_parts os c prefix o :
  let parts := Split (ListFolders_relativePath os c prefix o) "/" in
  folder_name os c prefix o
  = if (1 <? length parts)%nat && negb (String.eqb (parts !!! 0%nat) "")
    then Some (parts !!! 0%nat) else None.
Proof.
  unfold folder_name, ListFolders_relativePath.
  destruct (String.eqb_spec prefix "") as [->|Hp]; simpl.
  - destruct (Split _ "/") as [|a [|b l]]; simpl; try done.
    destruct (String.eqb_spec a ""); by destruct (decide (a = "")).
  - rewrite decide_False by done.
    destruct (Split _ "/") as [|a [|b l]]; simpl; try done.
    destruct (String.eqb_spec a ""); by destruct (decide (a = "")).
Qed.

Lemma ListFolders_loop_spec os c prefix objectCh folders
    (seenFolders : gmap string bool) :
  (forall x, default false (seenFolders !! x) = true <-> x ∈ folders) ->
  ListFolders_loop os c prefix objectCh folders seenFolders
  = match first_listing_error objectCh with
    | Some e => ([], Some e)
    | None =>
        (folders
         ++ filter (fun y => y ∉ folders)
              (first_seen (omap (folder_name os c prefix) objectCh)), None)
    end.
Proof.
  unfold first_listing_error.
  revert folders seenFolders.
  induction objectCh as [|o rest IH]; intros folders seenFolders Hseen.
  { simpl. by rewrite app_nil_r. }
  cbn [ListFolders_loop omap list_omap].
  destruct (Minio.Err_ o) as [e|] eqn:Ee; [done|].
  pose proof (ListFolders_relativePath_parts os c prefix o) as Hn.
  cbv zeta in Hn. cbv zeta.
  destruct ((1 <? length _)%nat && negb (String.eqb _ "")).
  - rewrite Hn. set (x := Split _ "/" !!! 0%nat). clearbody x.
    destruct (default false (seenFolders !! x)) eqn:Es; simpl negb; cbv iota.
    + apply Hseen in Es. rewrite (IH _ _ Hseen).
      destruct (head (omap Minio.Err_ rest)); [done|].
      cbn [first_seen]. rewrite filter_cons_False by intuition (subst; auto; congruence).
      by rewrite filter_fresh_seen.
    + assert (x ∉ folders) as Hx.
      { intros Hx%Hseen. congruence. }
      rewrite (IH (folders ++ [x]) (<[x:=true]> seenFolders)).
      * destruct (head (omap Minio.Err_ rest)); [done|].
        cbn [first_seen]. rewrite filter_cons_True by done.
        by rewrite filter_fresh_snoc, <- app_assoc.
      * intros y. rewrite elem_of_app, list_elem_of_singleton, <- Hseen.
        destruct (decide (x = y)) as [->|Hne].
        -- rewrite lookup_insert_eq. intuition (subst; auto; congruence).
        -- rewrite lookup_insert_ne by done. intuition (subst; auto; congruence).
  - rewrite Hn. by apply IH.
Qed.

Lemma ListFolders_loop_folders os c prefix objectCh :
  ListFolders_loop os c prefix objectCh [] ∅
  = folders_of_listing os c prefix objectCh.
Proof.
  rewrite ListFolders_loop_spec.
  - unfold folders_of_listing. destruct (first_listing_error objectCh); [done|].
    simpl. f_equal. generalize (first_seen (omap (folder_name os c prefix) objectCh)).
    intros l. induction l as [|y l IH]; [done|].
    rewrite filter_cons_True by apply not_elem_of_nil. by f_equal.
  - intros x. rewrite lookup_empty. simpl. split; [done|].
    intros H. by apply not_elem_of_nil in H.
Qed.

Lemma exec_ListFolders {St : Type} (h : Collaborator St) os c prefix (s : St) :
  ValidatePath os c prefix = None ->
  exec h (ListFolders os c prefix) s =
  let listing :=
    Minio.ListObjects (bucketName c)
      (Minio.mkListObjectsOptions (ListFolders_prefix os c prefix) false) in
  let '(objectCh, s1) := h _ listing s in
  (folders_of_listing os c prefix objectCh, s1, [Req listing]).
Proof.
  intros Hv. unfold ListFolders.
  replace (if negb (String.eqb prefix "") then ValidatePath os c prefix else None)
    with (@None Err) by (by destruct (negb _)).
  cbv zeta.
  replace (if negb (String.eqb (buildPath os c prefix) "")
              && negb (HasSuffix (buildPath os c prefix) "/")
           then buildPath os c prefix +:+ "/" else buildPath os c prefix)
    with (ListFolders_prefix os c prefix).
  - rewrite exec_call_bind.
    destruct (h _ _ s) as [objectCh s1]. simpl.
    by rewrite ListFolders_loop_folders.
  - unfold ListFolders_prefix. rewrite buildPath_no_trailing_slash.
    by destruct (String.eqb_spec (buildPath os c prefix) "") as [->|].
Qed.

(** What the loop of [ListFolders] computes.  For a valid prefix,
    [ListFolders] sends one listing, not recursive, of the built prefix, and
    for every listing the store delivers: if an entry carries an error the
    call returns that (first) error and no folders; otherwise it returns
    the names [folder_name] takes from the entries (the key stripped of the
    base prefix and of the caller's prefix as passed, first segment of
    more than one, not empty), each once, in first-seen order: the
    [seenFolders] map and the appended slice amount to [first_seen]. *)
Theorem ListFolders_first_seen (os : GOOS) (c : Client) (prefix : string) :
  ValidatePath os c prefix = None ->
  (forall (St : Type) (h : Collaborator St) (s : St),
     let listing :=
       Minio.ListObjects (bucketName c)
         (Minio.mkListObjectsOptions (ListFolders_prefix os c prefix) false) in
     exec h (ListFolders os c prefix) s =
     let '(objectCh, s1) := h _ listing s in
     (folders_of_listing os c prefix objectCh, s1, [Req listing]))
  /\ (forall objectCh folders,
        folders_of_listing os c prefix objectCh = (folders, None) ->
        NoDup folders
        /\ forall x, x ∈ folders
                     <-> exists o, o ∈ objectCh /\ folder_name os c prefix o = Some x)
  /\ (forall objectCh e,
        first_listing_error objectCh = Some e ->
        folders_of_listing os c prefix objectCh = ([], Some e))
  /\ (forall names x,
        first_seen (names ++ [x])
        = if decide (x ∈ names) then first_seen names else first_seen names ++ [x]).
Proof.
  intros Hv. split; [|split; [|split]].
  - intros St h s listing. by rewrite exec_ListFolders.
  - intros objectCh folders. unfold folders_of_listing.
    destruct (first_listing_error objectCh); [done|]. intros [= <-]. split.
    + apply first_seen_NoDup.
    + intros x. rewrite first_seen_elem, list_elem_of_omap. intuition (subst; auto; congruence).
  - intros objectCh e He. unfold folders_of_listing. by rewrite He.
  - apply first_seen_snoc.
Qed.

Lemma ListFolders_first_seen_witness :
  let c := mkClient "b" "app-data" "" in
  let objectCh :=
    [Minio.mkObjectInfo "app-data/docs/b/c.txt" 1 0 None;
     Minio.mkObjectInfo "app-data/docs/a.txt" 1 0 None;
     Minio.mkObjectInfo "app-data/docs/k/" 0 0 None;
     Minio.mkObjectInfo "app-data/docs/b/d.txt" 1 0 None] in
  (exec MemStore.serve (ListFolders unix c "docs") tenant_store).1.1 = (["b"], None)
  /\ folders_of_listing unix c "docs" objectCh = (["b"; "k"], None)
  /\ NoDup ["b"; "k"]
  /\ folders_of_listing unix c "docs"
       (objectCh ++ [Minio.mkObjectInfo "" 0 0 (Some (OtherError "timeout"))])
     = ([], Some (OtherError "timeout")).
Proof.
  intros c objectCh.
  pose proof (ListFolders_first_seen unix c "docs" eq_refl) as (H1 & H2 & H3 & _).
  split; [|split; [|split]].
  - rewrite (H1 _ MemStore.serve tenant_store). by vm_compute.
  - by vm_compute.
  - apply (H2 objectCh ["b"; "k"]). by vm_compute.
  - apply H3. by vm_compute.
Defined.

(** C7.  The claim has [ListFolders] strip the caller's relative prefix
    from every key; the code strips [Trim prefix "/" ++ "/"] with the prefix
    as it was passed, while the listing it asks for is that of the built,
    slash-canonicalized prefix.  Where the separator is the backslash,
    [ListFolders "docs\sub"] is valid and lists ["docs/sub/"], nothing is
    stripped from the keys that come back, and over the keys
    ["docs/sub/x/y.txt"] and ["docs/sub/z/"] the call returns [["docs"]],
    where the claim, and the code for the prefix ["docs/sub"], give
    [["x"; "z"]]. *)
Theorem ListFolders_backslash_prefix_not_stripped :
  let c := mkClient "b" "" "" in
  let objectCh :=
    [Minio.mkObjectInfo "docs/sub/x/y.txt" 1 0 None;
     Minio.mkObjectInfo "docs/sub/z/" 0 0 None] in
  let st : MemStore.Store :=
    {[ ("b", "docs/sub/x/y.txt") := "y"; ("b", "docs/sub/z/.empty") := "" ]} in
  ValidatePath windows c "docs\sub" = None
  /\ (exec MemStore.serve (ListFolders windows c "docs\sub") st).2
     = [Req (Minio.ListObjects "b" (Minio.mkListObjectsOptions "docs/sub/" false))]
  /\ (exec MemStore.serve (ListFolders windows c "docs\sub") st).1.1 = (["docs"], None)
  /\ ListFolders_loop windows c "docs\sub" objectCh [] ∅ = (["docs"], None)
  /\ folders_of_listing_spec windows c "docs\sub" objectCh = (["x"; "z"], None)
  /\ ListFolders_loop windows c "docs/sub" objectCh [] ∅ = (["x"; "z"], None).
Proof. by vm_compute. Qed.





End ListFoldersClaims.

(** ** Validation before requests, and the copy destination *)

Section ValidationClaims.
Import Strings Filepath StringFacts PathFacts.

Lemma ComposeObject_sources_invalid os c pre src post e :
  Forall (fun x => Minio.CopySrc_Bucket x <> bucketName c
                   \/ ValidatePath os c (Minio.CopySrc_Object x) = None) pre ->
  Minio.CopySrc_Bucket src = bucketName c ->
  ValidatePath os c (Minio.CopySrc_Object src) = Some e ->
  (ComposeObject_sources os c (pre ++ src :: post)).2
  = Some (InvalidSourcePath (Minio.CopySrc_Object src) e).
Proof.
  intros Hpre Hb Hv. induction Hpre as [|x pre Hx _ IH]; simpl.
  - rewrite Hb, String.eqb_refl, Hv. done.
  - destruct (String.eqb_spec (Minio.CopySrc_Bucket x) (bucketName c)) as [E|E].
    + destruct Hx as [Hx|Hx]; [done|]. rewrite Hx.
      destruct (ComposeObject_sources os c (pre ++ src :: post)). exact IH.
    + destruct (ComposeObject_sources os c (pre ++ src :: post)). exact IH.
Qed.

Lemma ComposeObject_sources_ok os c srcs :
  forallb (source_ok os c) srcs = true ->
  ComposeObject_sources os c srcs = (map (prefixed_source os c) srcs, None).
Proof.
  induction srcs as [|src rest IH]; [done|]. simpl.
  intros [Hs Hr]%andb_true_iff. rewrite (IH Hr). unfold source_ok, prefixed_source in *.
  destruct (String.eqb (Minio.CopySrc_Bucket src) (bucketName c)); [|done].
  simpl in Hs. apply bool_decide_eq_true in Hs. by rewrite Hs.
Qed.

Lemma source_of_other_bucket os c src :
  Minio.CopySrc_Bucket src <> bucketName c ->
  source_ok os c src = true /\ prefixed_source os c src = src.
Proof.
  intros H%String.eqb_neq. unfold source_ok, prefixed_source. by rewrite H.
Qed.

(** C2, as stated, fails, in four places.  [SelectObjectContent] sends its
    request for a path that [ValidatePath] rejects.  [ComposeObject] sends
    its request with a source of another bucket whose path [ValidatePath]
    rejects, and for such a source of the configured bucket the error it
    returns is not the validation error but one that wraps it.
    [GetPublicURL] without a public base URL returns the configuration
    error for a path that [ValidatePath] rejects. *)
Lemma validation_not_universal_counterexample :
  let c := mkClient "b" "app-data" "" in
  let opts := Minio.mkSelectObjectOptions "select * from s3object" in
  let copts := Minio.mkCopyDestOptions "" "" None [] false [] false in
  (ValidatePath unix c "../secret.csv" = Some (TraversalError "../secret.csv")
   /\ (forall r, ~ silent (SelectObjectContent unix c "../secret.csv" opts) r)
   /\ forall (St : Type) (h : Collaborator St) (s : St),
        (exec h (SelectObjectContent unix c "../secret.csv" opts) s).2
        = [Req (Minio.SelectObjectContent "b" "app-data/../secret.csv" opts)])
  /\ (ValidatePath unix c "../raw" = Some (TraversalError "../raw")
      /\ (forall (St : Type) (h : Collaborator St) (s : St),
            (exec h (ComposeObject unix c "out"
                       [Minio.mkCopySrcOptions "other" "../raw" ""] copts) s).2
            = [Req (Minio.ComposeObject
                      (Minio.mkCopyDestOptions "b" "app-data/out" None [] false [] false)
                      [Minio.mkCopySrcOptions "other" "../raw" ""])])
      /\ ComposeObject unix c "out" [Minio.mkCopySrcOptions "b" "../raw" ""] copts
         = Ret (Minio.UploadInfo_zero,
                Some (InvalidSourcePath "../raw" (TraversalError "../raw")))
      /\ InvalidSourcePath "../raw" (TraversalError "../raw") <> TraversalError "../raw")
  /\ (publicBaseURL c = ""
      /\ forall url_Parse,
           GetPublicURL unix url_Parse c "../secret.csv"
           = (None, Some PublicURLNotConfigured)).
Proof.
  intros c opts copts. split; [|split].
  - split; [done|]. split; [done|].
    intros St h s. unfold SelectObjectContent. rewrite exec_call.
    by destruct (h _ _ s).
  - split; [done|]. split; [|done].
    intros St h s. unfold ComposeObject.
    change (ValidatePath unix c "out") with (@None Err). cbv iota.
    rewrite (ComposeObject_sources_ok unix c
               [Minio.mkCopySrcOptions "other" "../raw" ""] eq_refl).
    rewrite exec_call_bind. by destruct (h _ _ s) as [[u [e|]] s1].
  - done.
Qed.

(** C2, amended.  Every operation that takes a caller-supplied path
    validates it and returns the validation error without any request to
    the store (the object operations, copy on either path, the destination
    of compose, tagging, retention, legal hold, the presigned URLs and
    policies, the folder operations and the listings, [ListObjects]
    delivering the error as the one entry of its channel), except where the
    code does otherwise on purpose.  [SelectObjectContent] never validates
    and sends its request for any path.  [ComposeObject] validates the
    sources of the configured bucket, returning the validation error
    wrapped, and forwards a source of another bucket as it is: the request
    is sent exactly when every source is of another bucket or valid.
    [GetPublicURL], which never talks to the store, looks at the public
    base URL first: without one it returns the configuration error, with
    one the validation error.  [GetPresignedPostPolicy] takes a policy, not
    a path, and forwards it.  Besides these only the empty listing prefix
    skips validation. *)
Theorem validation_precedes_requests (os : GOOS) (c : Client) :
  (forall path e,
     ValidatePath os c path = Some e ->
     (forall opts, silent (StatObject os c path opts) (Minio.ObjectInfo_zero, Some e))
     /\ (forall opts, silent (GetObject os c path opts) (None, Some e))
     /\ (forall reader size opts,
           silent (PutObject os c path reader size opts) (Minio.UploadInfo_zero, Some e))
     /\ (forall opts, silent (RemoveObject os c path opts) (Some e))
     /\ (forall recursive,
           silent (ListObjects os c path recursive) [Minio.mkObjectInfo "" 0 0 (Some e)])
     /\ (forall src opts,
           silent (CopyObject os c path src opts) (Minio.UploadInfo_zero, Some e))
     /\ (forall dest opts,
           ValidatePath os c dest = None ->
           silent (CopyObject os c dest path opts) (Minio.UploadInfo_zero, Some e))
     /\ (forall srcs opts,
           silent (ComposeObject os c path srcs opts) (Minio.UploadInfo_zero, Some e))
     /\ (forall dest pre src post opts,
           ValidatePath os c dest = None ->
           Forall (fun x => Minio.CopySrc_Bucket x <> bucketName c
                            \/ ValidatePath os c (Minio.CopySrc_Object x) = None) pre ->
           Minio.CopySrc_Bucket src = bucketName c ->
           Minio.CopySrc_Object src = path ->
           silent (ComposeObject os c dest (pre ++ src :: post) opts)
             (Minio.UploadInfo_zero, Some (InvalidSourcePath path e)))
     /\ (forall opts, silent (GetObjectTagging os c path opts) (None, Some e))
     /\ (forall otags opts, silent (PutObjectTagging os c path otags opts) (Some e))
     /\ (forall opts, silent (RemoveObjectTagging os c path opts) (Some e))
     /\ (forall versionID,
           silent (GetObjectRetention os c path versionID) (None, None, Some e))
     /\ (forall opts, silent (PutObjectRetention os c path opts) (Some e))
     /\ (forall opts, silent (GetObjectLegalHold os c path opts) (None, Some e))
     /\ (forall opts, silent (PutObjectLegalHold os c path opts) (Some e))
     /\ (forall expiry, silent (GetPresignedURL os c path expiry) (None, Some e))
     /\ (forall expiry params,
           silent (GetPresignedURLWithParams os c path expiry params) (None, Some e))
     /\ (forall expiry, silent (GetPresignedPutURL os c path expiry) (None, Some e))
     /\ (forall expiry params,
           silent (PresignedGetObject os c path expiry params) (None, Some e))
     /\ (forall expiry, silent (PresignedPutObject os c path expiry) (None, Some e))
     /\ (forall expiry params,
           silent (PresignedHeadObject os c path expiry params) (None, Some e))
     /\ (forall expiry maxSize,
           silent (PresignedPostPolicyForUpload os c path expiry maxSize)
             (None, [], Some e))
     /\ (forall expiry contentType maxSize,
           silent (PresignedPostPolicyWithConditions os c path expiry contentType maxSize)
             (None, [], Some e))
     /\ silent (FolderExists os c path) (false, Some e)
     /\ silent (CreateFolder os c path) (Some e)
     /\ silent (RemoveFolder os c path) (Some e)
     /\ silent (ListFolders os c path) ([], Some e)
     /\ (forall url_Parse,
           publicBaseURL c <> "" ->
           GetPublicURL os url_Parse c path = (None, Some e)))
  /\ (forall path opts,
        SelectObjectContent os c path opts
        = call (Minio.SelectObjectContent (bucketName c) (buildPath os c path) opts))
  /\ (forall dest srcs opts,
        ValidatePath os c dest = None ->
        (forallb (source_ok os c) srcs = true ->
         forall (St : Type) (h : Collaborator St) (s : St),
           (exec h (ComposeObject os c dest srcs opts) s).2
           = [Req (Minio.ComposeObject
                     (CopyDestOptions_setDest opts (bucketName c) (buildPath os c dest))
                     (map (prefixed_source os c) srcs))])
        /\ (forallb (source_ok os c) srcs = false ->
            exists e, silent (ComposeObject os c dest srcs opts)
                        (Minio.UploadInfo_zero, Some e)))
  /\ (forall src,
        Minio.CopySrc_Bucket src <> bucketName c ->
        source_ok os c src = true /\ prefixed_source os c src = src)
  /\ (forall url_Parse path,
        publicBaseURL c = "" ->
        GetPublicURL os url_Parse c path = (None, Some PublicURLNotConfigured))
  /\ (forall policy,
        GetPresignedPostPolicy c policy = call (Minio.PresignedPostPolicy policy))
  /\ (forall recursive,
        ListObjects os c "" recursive
        = (objectCh ← call (Minio.ListObjects (bucketName c)
                              (Minio.mkListObjectsOptions (buildPath os c "") recursive));
           Ret (map (ListObjects_relay os c) objectCh)))
  /\ (forall (St : Type) (h : Collaborator St) (s : St),
        (exec h (ListFolders os c "") s).2
        = [Req (Minio.ListObjects (bucketName c)
                  (Minio.mkListObjectsOptions (ListFolders_prefix os c "") false))]).
Proof.
  split; [|split; [|split; [|split; [|split; [|split; [|split]]]]]].
  - intros path e Hv.
    assert (String.eqb path "" = false) as Hne.
    { apply String.eqb_neq. intros ->. by rewrite ValidatePath_empty in Hv. }
    unfold silent, StatObject, GetObject, PutObject, RemoveObject, ListObjects,
      CopyObject, ComposeObject, GetObjectTagging, PutObjectTagging,
      RemoveObjectTagging, GetObjectRetention, PutObjectRetention,
      GetObjectLegalHold, PutObjectLegalHold, GetPresignedURL, PresignedGetObject,
      PresignedPutObject, GetPresignedURLWithParams, GetPresignedPutURL,
      PresignedHeadObject, PresignedPostPolicyForUpload,
      PresignedPostPolicyWithConditions, FolderExists, CreateFolder, RemoveFolder,
      ListFolders, GetPublicURL.
    rewrite Hv, Hne. simpl negb. cbv iota.
    repeat match goal with |- _ /\ _ => split end; try done.
    + intros dest opts Hd. by rewrite Hd.
    + intros dest pre src post opts Hd Hpre Hb Ho. rewrite Hd.
      pose proof (ComposeObject_sources_invalid os c pre src post e Hpre Hb) as H.
      rewrite Ho in H. specialize (H Hv).
      destruct (ComposeObject_sources os c (pre ++ src :: post)) as [l o].
      simpl in H. by rewrite H.
    + intros url_Parse Hu. apply String.eqb_neq in Hu. by rewrite Hu.
  - done.
  - intros dest srcs opts Hd. unfold silent, ComposeObject. rewrite Hd. split.
    + intros Hs St h s. rewrite (ComposeObject_sources_ok os c srcs Hs).
      rewrite exec_call_bind. by destruct (h _ _ s) as [[u [e|]] s1].
    + intros Hs.
      assert (exists e, (ComposeObject_sources os c srcs).2 = Some e) as [e He].
      { clear Hd. induction srcs as [|src rest IH]; [done|]. simpl in *.
        apply andb_false_iff in Hs as [Hs|Hr].
        - unfold source_ok in Hs.
          destruct (String.eqb (Minio.CopySrc_Bucket src) (bucketName c)); [|done].
          simpl in Hs. apply bool_decide_eq_false in Hs.
          destruct (ValidatePath os c (Minio.CopySrc_Object src)); [by eexists|done].
        - destruct (IH Hr) as [e He].
          destruct (ComposeObject_sources os c rest) as [l o]. simpl in He. subst o.
          destruct (String.eqb (Minio.CopySrc_Bucket src) (bucketName c));
            [|by eexists].
          destruct (ValidatePath os c (Minio.CopySrc_Object src)); by eexists. }
      destruct (ComposeObject_sources os c srcs) as [l o]. simpl in He. subst o.
      by exists e.
  - apply source_of_other_bucket.
  - intros url_Parse path Hu. unfold GetPublicURL. by rewrite Hu.
  - done.
  - intros recursive. unfold ListObjects. by rewrite String.eqb_refl.
  - intros St h s.
    rewrite exec_ListFolders by apply ValidatePath_empty.
    cbv zeta. by destruct (h _ _ s).
Qed.

Lemma validation_precedes_requests_witness :
  let c := mkClient "b" "app-data" "https://cdn.example" in
  let copts := Minio.mkCopyDestOptions "" "" None [] false [] false in
  silent (StatObject unix c "../x" Minio.StatObjectOptions_zero)
    (Minio.ObjectInfo_zero, Some (TraversalError "../x"))
  /\ silent (CopyObject unix c "ok/dest" "/abs" copts)
       (Minio.UploadInfo_zero, Some (AbsolutePathError "/abs"))
  /\ silent (ComposeObject unix c "ok/dest"
               [Minio.mkCopySrcOptions "other" "../kept" "";
                Minio.mkCopySrcOptions "b" "/abs" ""] copts)
       (Minio.UploadInfo_zero, Some (InvalidSourcePath "/abs" (AbsolutePathError "/abs")))
  /\ GetPublicURL unix (fun u => (Some u, None)) c "/abs"
     = (None, Some (AbsolutePathError "/abs"))
  /\ (exec MemStore.serve
        (ComposeObject unix c "ok/dest"
           [Minio.mkCopySrcOptions "other" "../kept" "";
            Minio.mkCopySrcOptions "b" "fine" ""] copts) ∅).2
     = [Req (Minio.ComposeObject
               (Minio.mkCopyDestOptions "b" "app-data/ok/dest" None [] false [] false)
               [Minio.mkCopySrcOptions "other" "../kept" "";
                Minio.mkCopySrcOptions "b" "app-data/fine" ""])]
  /\ GetPublicURL unix (fun u => (Some u, None)) (mkClient "b" "app-data" "") "/abs"
     = (None, Some PublicURLNotConfigured).
Proof.
  intros c copts.
  pose proof (proj1 (validation_precedes_requests unix c)) as H.
  split; [|split; [|split; [|split; [|split]]]].
  - apply (H "../x" (TraversalError "../x") eq_refl).
  - apply (H "/abs" (AbsolutePathError "/abs") eq_refl). reflexivity.
  - apply (proj2 (proj2 (proj2 (proj2 (proj2 (proj2 (proj2 (proj2
             (H "/abs" (AbsolutePathError "/abs") eq_refl)))))))))
      with (pre := [Minio.mkCopySrcOptions "other" "../kept" ""])
           (src := Minio.mkCopySrcOptions "b" "/abs" "") (post := []).
    + reflexivity.
    + constructor; [|constructor]. left. simpl. discriminate.
    + reflexivity.
    + reflexivity.
  - apply (H "/abs" (AbsolutePathError "/abs") eq_refl). simpl. discriminate.
  - exact (proj1 (proj1 (proj2 (proj2 (validation_precedes_requests unix c)))
                    "ok/dest"
                    [Minio.mkCopySrcOptions "other" "../kept" "";
                     Minio.mkCopySrcOptions "b" "fine" ""] copts eq_refl)
             eq_refl _ MemStore.serve ∅).
  - exact (proj1 (proj2 (proj2 (proj2 (proj2
             (validation_precedes_requests unix (mkClient "b" "app-data" ""))))))
             (fun u => (Some u, None)) "/abs" eq_refl).
Defined.

(** C9.  [CopyObject] does not look at its [opts] argument: the program is
    the same for any two values of it, and for valid paths the one request
    sent names the configured bucket and the built destination key, with
    every other field of the destination options at its zero value. *)
Theorem CopyObject_ignores_opts (os : GOOS) (c : Client)
    (dest src : string) (opts1 opts2 : Minio.CopyDestOptions) :
  CopyObject os c dest src opts1 = CopyObject os c dest src opts2
  /\ (ValidatePath os c dest = None ->
      ValidatePath os c src = None ->
      forall (St : Type) (h : Collaborator St) (s : St),
        (exec h (CopyObject os c dest src opts1) s).2
        = [Req (Minio.CopyObject
                  (Minio.mkCopyDestOptions (bucketName c) (buildPath os c dest)
                     None [] false [] false)
                  (Minio.mkCopySrcOptions (bucketName c) (buildPath os c src) ""))]).
Proof.
  split; [done|]. intros Hd Hs St h s. unfold CopyObject.
  rewrite Hd, Hs, exec_call_bind.
  destruct (h _ _ s) as [[u [e|]] s1]; done.
Qed.

Lemma CopyObject_ignores_opts_witness :
  let c := mkClient "b" "app-data" "" in
  let opts :=
    Minio.mkCopyDestOptions "elsewhere" "other/key" (Some "SSE-S3")
      [("owner", "alice")] true [("env", "prod")] true in
  (exec MemStore.serve (CopyObject unix c "to/x" "from/x" opts) ∅).2
  = [Req (Minio.CopyObject
            (Minio.mkCopyDestOptions "b" "app-data/to/x" None [] false [] false)
            (Minio.mkCopySrcOptions "b" "app-data/from/x" ""))].
Proof.
  intros c opts.
  exact (proj2 (CopyObject_ignores_opts unix c "to/x" "from/x" opts opts)
           eq_refl eq_refl _ MemStore.serve ∅).
Defined.

End ValidationClaims.

(** * Further properties of the package *)

(** ** More facts about the string functions *)

Module MoreStringFacts.
Import Strings StringFacts.

Lemma append_empty_r (s : string) : s +:+ "" = s.
Proof. induction s as [|c s IH]; [done|]. by rewrite append_cons, IH. Qed.

Lemma append_empty_l (s : string) : "" +:+ s = s.
Proof. reflexivity. Qed.

Lemma HasPrefix_app_app (a b c : string) :
  HasPrefix (a +:+ b) (a +:+ c) = HasPrefix b c.
Proof.
  induction a as [|x a IH]; [done|].
  rewrite !append_cons. simpl. by rewrite Ascii.eqb_refl.
Qed.

Lemma Contains_here (s sub : string) :
  HasPrefix s sub = true -> Contains s sub = true.
Proof. intros H. destruct s; simpl; by rewrite H. Qed.

Lemma Contains_spec (s sub : string) :
  Contains s sub = true <-> exists a b, s = a +:+ sub +:+ b.
Proof.
  split.
  - induction s as [|c s IH].
    + simpl. rewrite orb_false_r. intros [t ->]%HasPrefix_spec. by exists "", t.
    + simpl. intros [H|H]%orb_true_iff.
      * apply HasPrefix_spec in H as [t ->]. by exists "", t.
      * apply IH in H as (a & b & ->). by exists (String c a), b.
  - intros (a & b & ->). induction a as [|c a IH].
    + rewrite append_empty_l. apply Contains_here, HasPrefix_app.
    + rewrite append_cons. by apply Contains_cons.
Qed.

Lemma TrimLeft_suffix (s cutset : string) :
  exists t, s = t +:+ TrimLeft s cutset.
Proof.
  induction s as [|c s [t IH]]; simpl; [by exists ""|].
  destruct (ContainsByte cutset c); [|by exists ""].
  exists (String c t). by rewrite append_cons, <- IH.
Qed.

Lemma TrimRight_prefix (s cutset : string) :
  exists t, s = TrimRight s cutset +:+ t.
Proof.
  induction s as [|c s [t IH]]; simpl; [by exists ""|].
  destruct (TrimRight s cutset) as [|b r].
  - destruct (ContainsByte cutset c).
    + by exists (String c s).
    + exists s. done.
  - exists t. by rewrite append_cons, <- IH.
Qed.

Lemma Contains_Trim (s cutset sub : string) :
  Contains (Trim s cutset) sub = true -> Contains s sub = true.
Proof.
  unfold Trim. rewrite !Contains_spec. intros (a & b & E).
  destruct (TrimRight_prefix s cutset) as [t Ht].
  destruct (TrimLeft_suffix (TrimRight s cutset) cutset) as [u Hu].
  exists (u +:+ a), (b +:+ t).
  rewrite Ht at 1. rewrite Hu at 1. rewrite E.
  by rewrite !append_assoc.
Qed.

(** [".."] cannot straddle a slash. *)
Lemma Contains_dotdot_join (a b : string) :
  Contains (a +:+ "/" +:+ b) ".." = true ->
  Contains a ".." = true \/ Contains b ".." = true.
Proof.
  induction a as [|x a IH].
  - simpl. by right.
  - rewrite append_cons. intros H. cbn [Contains] in H.
    apply orb_true_iff in H as [H|H].
    + left. apply Contains_here. revert H. cbn [HasPrefix].
      destruct (Ascii.eqb x "."); [|done].
      destruct a as [|y a]; [done|]. rewrite append_cons.
      by destruct (Ascii.eqb y ".").
    + apply IH in H as [H|H]; [left|by right]. by apply Contains_cons.
Qed.

Lemma TrimLeft_fix (s cutset : string) :
  (forall c r, s = String c r -> ContainsByte cutset c = false) ->
  TrimLeft s cutset = s.
Proof.
  destruct s as [|c r]; [done|]. intros H. simpl. by rewrite (H c r).
Qed.

Lemma TrimRight_fix (s cutset : string) :
  (forall c, last_byte s = Some c -> ContainsByte cutset c = false) ->
  TrimRight s cutset = s.
Proof.
  induction s as [|a s IH]; [done|]. intros H. simpl.
  destruct s as [|b t].
  - simpl. by rewrite (H a).
  - rewrite IH; [done|]. intros c Hc. by apply H.
Qed.

Lemma Trim_idem (s cutset : string) :
  Trim (Trim s cutset) cutset = Trim s cutset.
Proof.
  unfold Trim at 1. rewrite TrimRight_fix.
  - apply TrimLeft_fix. intros c r E. by eapply Trim_head.
  - intros c. apply Trim_last.
Qed.

(** The pieces of a split hold no separator, and a split at a slash is the
    two splits one after the other. *)
Lemma Split_slash_pieces (s x : string) :
  x ∈ Split s "/" -> Contains x "/" = false.
Proof.
  revert x; induction s as [|c s IH]; intros x.
  - intros ->%list_elem_of_singleton. done.
  - rewrite Split_slash_cons. destruct (Ascii.eqb_spec c "/") as [->|Hc].
    + intros [->|H]%elem_of_cons; [done|]. by apply IH.
    + destruct (Split s "/") as [|h t] eqn:E.
      { by apply Split_slash_nonempty in E. }
      intros [->|H]%elem_of_cons.
      * cbn [Contains HasPrefix]. rewrite IH by (by left).
        destruct (Ascii.eqb_spec c "/"); done.
      * apply IH. by right.
Qed.

Lemma Split_slash_app (a b : string) :
  Split (a +:+ "/" +:+ b) "/" = Split a "/" ++ Split b "/".
Proof.
  induction a as [|c a IH].
  - change ("" +:+ "/" +:+ b) with (String "/" b). by rewrite Split_slash_cons.
  - rewrite append_cons, !Split_slash_cons, IH.
    destruct (Ascii.eqb c "/"); [done|].
    destruct (Split a "/") as [|h t] eqn:E; [|done].
    by apply Split_slash_nonempty in E.
Qed.

Lemma Split_slash_head_empty (s : string) (t : list string) :
  Split s "/" = "" :: t -> s = "" \/ HasPrefix s "/" = true.
Proof.
  destruct s as [|c s]; [by left|]. rewrite Split_slash_cons. simpl.
  destruct (Ascii.eqb c "/"); [by right|].
  by destruct (Split s "/").
Qed.

Lemma HasSuffix_app_byte (s : string) (c : ascii) :
  HasSuffix (s +:+ String c "") (String c "") = true.
Proof. apply HasSuffix_byte. by rewrite last_byte_app. Qed.

Lemma slice_to_app (a b : string) : slice_to (len a) (a +:+ b) = a.
Proof.
  induction a as [|c a IH]; [by destruct b|].
  rewrite append_cons. simpl. by rewrite IH.
Qed.

Lemma TrimSuffix_app_byte (s : string) (c : ascii) :
  TrimSuffix (s +:+ String c "") (String c "") = s.
Proof.
  unfold TrimSuffix. rewrite HasSuffix_app_byte, len_app.
  change (len (String c "")) with 1%nat.
  replace (len s + 1 - 1)%nat with (len s) by lia. apply slice_to_app.
Qed.

End MoreStringFacts.

(** ** The path namespace, continued *)

Section PathNamespaceExtras.
Import Strings Filepath StringFacts PathFacts MoreStringFacts.

Lemma normalize_idem os p : normalize os (normalize os p) = normalize os p.
Proof. unfold normalize. by rewrite ToSlash_Trim, Trim_idem. Qed.

Lemma buildPath_cases os c p :
  buildPath os c p =
  if String.eqb (baseDirPrefix c) "" then normalize os p
  else if String.eqb (normalize os p) "" then normalize os (baseDirPrefix c)
       else normalize os (baseDirPrefix c) +:+ "/" +:+ normalize os p.
Proof.
  unfold buildPath, normalize. destruct (String.eqb (baseDirPrefix c) ""); [|done].
  by destruct (String.eqb_spec (Trim (ToSlash os p) "/") "") as [->|].
Qed.

Lemma buildPath_normalize os c p :
  buildPath os c (normalize os p) = buildPath os c p.
Proof. by rewrite !buildPath_cases, normalize_idem. Qed.

Lemma ValidatePath_None os c p :
  ValidatePath os c p = None
  <-> Contains (ToSlash os p) ".." = false /\ HasPrefix (ToSlash os p) "/" = false.
Proof.
  unfold ValidatePath.
  destruct (Contains (ToSlash os p) ".."), (HasPrefix (ToSlash os p) "/");
    intuition congruence.
Qed.

Lemma ValidatePath_normalize os c p :
  ValidatePath os c p = None -> ValidatePath os c (normalize os p) = None.
Proof.
  rewrite !ValidatePath_None. intros [Hd _]. unfold normalize.
  rewrite ToSlash_Trim. split.
  - destruct (Contains (Trim (ToSlash os p) "/") "..") eqn:E; [|done].
    apply Contains_Trim in E. congruence.
  - apply Trim_no_leading_slash.
Qed.

(** Two paths are sent to the same key exactly when they have the same
    normalization: different normalized paths never collide. *)
Theorem buildPath_same_key_iff (os : GOOS) (c : Client) (p p' : string) :
  buildPath os c p = buildPath os c p' <-> normalize os p = normalize os p'.
Proof.
  split.
  - intros H. apply (f_equal (stripBasePath os c)) in H.
    by rewrite !stripBasePath_buildPath in H.
  - intros H. by rewrite <- (buildPath_normalize os c p), H, buildPath_normalize.
Qed.

(** The relative key that stripping gives back for a valid path is valid
    again and is built into the same key: what the package returns to a
    caller can be passed back in to address the same object. *)
Theorem relative_key_feeds_back (os : GOOS) (c : Client) (p : string) :
  ValidatePath os c p = None ->
  ValidatePath os c (stripBasePath os c (buildPath os c p)) = None
  /\ buildPath os c (stripBasePath os c (buildPath os c p)) = buildPath os c p.
Proof.
  intros Hv. rewrite stripBasePath_buildPath. split.
  - by apply ValidatePath_normalize.
  - apply buildPath_normalize.
Qed.

Lemma relative_key_feeds_back_witness :
  let c := mkClient "b" "/app-data/" "" in
  ValidatePath windows c "documents" = None
  /\ buildPath windows c "documents" = "app-data/documents".
Proof.
  intros c.
  pose proof (relative_key_feeds_back windows c "documents\" eq_refl) as [H1 H2].
  split; [exact H1 | exact H2].
Defined.

(** A validated path cannot leave the base directory: when the base prefix
    holds no [".."], the key built from a valid path holds none either, and
    with a base prefix set the key is the trimmed prefix or lies below it. *)
Theorem buildPath_confined (os : GOOS) (c : Client) (p : string) :
  ValidatePath os c p = None ->
  Contains (ToSlash os (baseDirPrefix c)) ".." = false ->
  Contains (buildPath os c p) ".." = false
  /\ (baseDirPrefix c <> "" ->
      buildPath os c p = normalize os (baseDirPrefix c)
      \/ HasPrefix (buildPath os c p) (normalize os (baseDirPrefix c) +:+ "/") = true).
Proof.
  intros [Hp _]%ValidatePath_None Hb.
  assert (Contains (normalize os p) ".." = false) as Hp'.
  { destruct (Contains (normalize os p) "..") eqn:E; [|done].
    apply Contains_Trim in E. congruence. }
  assert (Contains (normalize os (baseDirPrefix c)) ".." = false) as Hb'.
  { destruct (Contains (normalize os (baseDirPrefix c)) "..") eqn:E; [|done].
    apply Contains_Trim in E. congruence. }
  rewrite buildPath_cases. split.
  - destruct (String.eqb (baseDirPrefix c) ""); [done|].
    destruct (String.eqb (normalize os p) ""); [done|].
    destruct (Contains (_ +:+ "/" +:+ _) "..") eqn:E; [|done].
    apply Contains_dotdot_join in E as [E|E]; congruence.
  - intros Hne. apply String.eqb_neq in Hne. rewrite Hne.
    destruct (String.eqb (normalize os p) ""); [by left|]. right.
    rewrite <- append_assoc. apply HasPrefix_app.
Qed.

Lemma buildPath_confined_witness :
  let c := mkClient "b" "tenants/t1" "" in
  Contains (buildPath unix c "reports/2024.csv") ".." = false
  /\ (buildPath unix c "reports/2024.csv" = "tenants/t1"
      \/ HasPrefix (buildPath unix c "reports/2024.csv") "tenants/t1/" = true).
Proof.
  intros c.
  pose proof (buildPath_confined unix c "reports/2024.csv" eq_refl eq_refl) as [H1 H2].
  split; [exact H1|]. apply H2. discriminate.
Defined.

Lemma ToSlash_nonempty os (r : string) : r <> "" -> ToSlash os r <> "".
Proof. rewrite ToSlash_map. by destruct r. Qed.

Lemma ToSlash_normalize os (s : string) :
  ToSlash os (normalize os s) = normalize os s.
Proof. apply ToSlash_Trim. Qed.

(** What [stripBasePath] does to an arbitrary key when a base prefix is set:
    below the trimmed prefix, the rest of the key comes back (one prefix is
    removed, not more); the prefix itself gives the empty string; a key that
    only shares leading bytes with the prefix, without the separator after
    it, comes back whole. *)
Theorem stripBasePath_by_cases (os : GOOS) (c : Client) :
  baseDirPrefix c <> "" ->
  (forall r,
     stripBasePath os c (normalize os (baseDirPrefix c) +:+ "/" +:+ r) = ToSlash os r)
  /\ stripBasePath os c (normalize os (baseDirPrefix c)) = ""
  /\ (forall r,
        r <> "" -> HasPrefix (ToSlash os r) "/" = false ->
        stripBasePath os c (normalize os (baseDirPrefix c) +:+ r)
        = normalize os (baseDirPrefix c) +:+ ToSlash os r).
Proof.
  intros Hne. apply String.eqb_neq in Hne.
  unfold stripBasePath. rewrite Hne. fold (normalize os (baseDirPrefix c)).
  set (cp := normalize os (baseDirPrefix c)).
  assert (ToSlash os cp = cp) as Hcp by apply ToSlash_normalize.
  split; [|split].
  - intros r. rewrite !ToSlash_app, Hcp, ToSlash_slash, <- append_assoc.
    by rewrite HasPrefix_app, TrimPrefix_app.
  - rewrite Hcp, HasPrefix_longer by done. by rewrite String.eqb_refl.
  - intros r Hr Hs. rewrite ToSlash_app, Hcp.
    rewrite HasPrefix_app_app, Hs.
    destruct (String.eqb_spec (cp +:+ ToSlash os r) cp) as [E|E]; [|done].
    apply (f_equal len) in E. rewrite len_app in E.
    pose proof (ToSlash_nonempty os r Hr) as Hn.
    destruct (ToSlash os r); [done|]. simpl in E. lia.
Qed.

Lemma stripBasePath_by_cases_witness :
  let c := mkClient "b" "app" "" in
  stripBasePath unix c "app/app/x" = "app/x"
  /\ stripBasePath unix c "app" = ""
  /\ stripBasePath unix c "app-data/x" = "app-data/x".
Proof.
  intros c.
  assert (baseDirPrefix c <> "") as Hne by discriminate.
  pose proof (stripBasePath_by_cases unix c Hne) as (H1 & H2 & H3).
  split; [|split].
  - exact (H1 "app/x").
  - exact H2.
  - apply (H3 "-data/x"); [discriminate | reflexivity].
Defined.

(** Slashes around a valid path do not matter to the operations on one
    object or folder: each runs as it does on the normalized path. *)
Theorem operations_on_normalized_path (os : GOOS) (c : Client) (p : string) :
  ValidatePath os c p = None ->
  (forall opts, StatObject os c p opts = StatObject os c (normalize os p) opts)
  /\ (forall opts, GetObject os c p opts = GetObject os c (normalize os p) opts)
  /\ (forall reader size opts,
        PutObject os c p reader size opts
        = PutObject os c (normalize os p) reader size opts)
  /\ (forall opts, RemoveObject os c p opts = RemoveObject os c (normalize os p) opts)
  /\ FolderExists os c p = FolderExists os c (normalize os p)
  /\ CreateFolder os c p = CreateFolder os c (normalize os p)
  /\ RemoveFolder os c p = RemoveFolder os c (normalize os p).
Proof.
  intros Hv. pose proof (ValidatePath_normalize os c p Hv) as Hn.
  unfold StatObject, GetObject, PutObject, RemoveObject, CreateFolder,
    FolderExists, RemoveFolder.
  by rewrite Hv, Hn, buildPath_normalize.
Qed.

Lemma operations_on_normalized_path_witness :
  let c := mkClient "b" "app-data" "" in
  FolderExists unix c "images/" = FolderExists unix c "images"
  /\ RemoveFolder unix c "images//" = RemoveFolder unix c "images".
Proof.
  intros c. split.
  - apply (operations_on_normalized_path unix c "images/" eq_refl).
  - apply (operations_on_normalized_path unix c "images//" eq_refl).
Defined.

End PathNamespaceExtras.

(** ** The object operations, continued *)

Section OperationExtras.
Import Strings Filepath StringFacts PathFacts MoreStringFacts.

(** A put or a stat on a valid path sends the built key, and when the store
    answers with that key and no error, the caller gets the normalized
    relative path back as the key. *)
Theorem object_key_round_trip (os : GOOS) (c : Client) (p : string)
    {St : Type} (h : Collaborator St) (s : St) :
  ValidatePath os c p = None ->
  (forall reader size opts,
     echoes_put h s (bucketName c) (buildPath os c p) reader size opts ->
     let '((u, err), _, log) := exec h (PutObject os c p reader size opts) s in
     err = None
     /\ Minio.UploadInfo_Key u = normalize os p
     /\ log = [Req (Minio.PutObject (bucketName c) (buildPath os c p) reader size opts)])
  /\ (forall opts,
        echoes_stat h s (bucketName c) (buildPath os c p) opts ->
        let '((info, err), _, log) := exec h (StatObject os c p opts) s in
        err = None
        /\ Minio.Key info = normalize os p
        /\ log = [Req (Minio.StatObject (bucketName c) (buildPath os c p) opts)]).
Proof.
  intros Hv. split.
  - intros reader size opts. unfold echoes_put, PutObject.
    rewrite Hv, exec_call_bind.
    destruct (h _ _ s) as [[u err] s1]. intros [-> Hk]. simpl.
    by rewrite Hk, stripBasePath_buildPath.
  - intros opts. unfold echoes_stat, StatObject.
    rewrite Hv, exec_call_bind.
    destruct (h _ _ s) as [[info err] s1]. intros [-> Hk]. simpl.
    by rewrite Hk, stripBasePath_buildPath.
Qed.

Lemma object_key_round_trip_witness :
  let c := mkClient "b" "app-data" "" in
  let opts := Minio.mkPutObjectOptions "text/plain" [] in
  let '((u, err), st1, log) :=
    exec MemStore.serve (PutObject unix c "documents/hello.txt" (Some "Hello") 5 opts) ∅ in
  err = None
  /\ Minio.UploadInfo_Key u = "documents/hello.txt"
  /\ log = [Req (Minio.PutObject "b" "app-data/documents/hello.txt" (Some "Hello") 5 opts)].
Proof.
  intros c opts.
  apply (proj1 (object_key_round_trip unix c "documents/hello.txt"
                  MemStore.serve ∅ eq_refl) (Some "Hello") 5%Z opts).
  by vm_compute.
Defined.

(** When the store answers a stat, put or copy on valid paths with an
    error, the caller gets that error as it is, with the store's result
    untouched (its key is not rewritten), after that one request. *)
Theorem store_errors_pass_through (os : GOOS) (c : Client) (p : string)
    {St : Type} (h : Collaborator St) (s : St) :
  ValidatePath os c p = None ->
  (forall opts,
     let q := Minio.StatObject (bucketName c) (buildPath os c p) opts in
     is_Some (h _ q s).1.2 ->
     exec h (StatObject os c p opts) s = ((h _ q s).1, (h _ q s).2, [Req q]))
  /\ (forall reader size opts,
        let q := Minio.PutObject (bucketName c) (buildPath os c p) reader size opts in
        is_Some (h _ q s).1.2 ->
        exec h (PutObject os c p reader size opts) s = ((h _ q s).1, (h _ q s).2, [Req q]))
  /\ (forall src opts,
        ValidatePath os c src = None ->
        let q :=
          Minio.CopyObject
            (Minio.mkCopyDestOptions (bucketName c) (buildPath os c p)
               None [] false [] false)
            (Minio.mkCopySrcOptions (bucketName c) (buildPath os c src) "") in
        is_Some (h _ q s).1.2 ->
        exec h (CopyObject os c p src opts) s = ((h _ q s).1, (h _ q s).2, [Req q])).
Proof.
  intros Hv. split; [|split].
  - intros opts q. unfold StatObject. rewrite Hv, exec_call_bind. fold q.
    destruct (h _ q s) as [[info [e|]] s1]; simpl; [done|]. by intros [? ?].
  - intros reader size opts q. unfold PutObject. rewrite Hv, exec_call_bind. fold q.
    destruct (h _ q s) as [[u [e|]] s1]; simpl; [done|]. by intros [? ?].
  - intros src opts Hs q. unfold CopyObject. rewrite Hv, Hs, exec_call_bind. fold q.
    destruct (h _ q s) as [[u [e|]] s1]; simpl; [done|]. by intros [? ?].
Qed.

Lemma store_errors_pass_through_witness :
  let c := mkClient "b" "app-data" "" in
  (exec MemStore.serve (StatObject unix c "missing.txt" Minio.StatObjectOptions_zero) ∅).1.1
  = (Minio.ObjectInfo_zero, Some MemStore.NoSuchKey).
Proof.
  intros c.
  rewrite (proj1 (store_errors_pass_through unix c "missing.txt" MemStore.serve ∅ eq_refl)
             Minio.StatObjectOptions_zero); [reflexivity|].
  by eexists.
Defined.

(** [ListObjects] on a valid prefix sends one listing of the built prefix
    and relays every entry, in order: none is dropped or added, an entry
    with an error is passed on as it is, and an entry without one keeps its
    size and date and gets its key stripped of the base prefix. *)
Theorem ListObjects_relays_every_entry (os : GOOS) (c : Client)
    (prefix : string) (recursive : bool) {St : Type} (h : Collaborator St) (s : St) :
  ValidatePath os c prefix = None ->
  let q :=
    Minio.ListObjects (bucketName c)
      (Minio.mkListObjectsOptions (buildPath os c prefix) recursive) in
  let '(out, s1, log) := exec h (ListObjects os c prefix recursive) s in
  s1 = (h _ q s).2
  /\ log = [Req q]
  /\ Forall2 (fun o o' =>
                Minio.Err_ o' = Minio.Err_ o
                /\ Minio.Size o' = Minio.Size o
                /\ Minio.LastModified o' = Minio.LastModified o
                /\ (Minio.Err_ o = None -> Minio.Key o' = stripBasePath os c (Minio.Key o))
                /\ (Minio.Err_ o <> None -> o' = o))
       (h _ q s).1 out.
Proof.
  intros Hv q. unfold ListObjects.
  replace (if negb (String.eqb prefix "") then ValidatePath os c prefix else None)
    with (@None Err) by (by destruct (negb _)).
  rewrite exec_call_bind. fold q. destruct (h _ q s) as [objectCh s1]. simpl.
  split; [done|]. split; [done|].
  induction objectCh as [|o l IH]; simpl; constructor; [|exact IH].
  unfold ListObjects_relay. destruct (Minio.Err_ o) eqn:E; simpl; by rewrite ?E.
Qed.

Lemma ListObjects_relays_every_entry_witness :
  let c := mkClient "b" "docs" "" in
  let q := Minio.ListObjects "b" (Minio.mkListObjectsOptions "docs" true) in
  let '(out, s1, log) := exec MemStore.serve (ListObjects unix c "" true) docs_store in
  s1 = docs_store
  /\ log = [Req q]
  /\ Forall2 (fun o o' =>
                Minio.Err_ o' = Minio.Err_ o
                /\ Minio.Size o' = Minio.Size o
                /\ Minio.LastModified o' = Minio.LastModified o
                /\ (Minio.Err_ o = None -> Minio.Key o' = stripBasePath unix c (Minio.Key o))
                /\ (Minio.Err_ o <> None -> o' = o))
       [Minio.mkObjectInfo "docs/a.txt" 1 0 None; Minio.mkObjectInfo "docs/b/c.txt" 1 0 None]
       out.
Proof.
  exact (ListObjects_relays_every_entry unix (mkClient "b" "docs" "") "" true
           MemStore.serve docs_store eq_refl).
Defined.

Lemma ComposeObject_sources_bad os c srcs :
  forallb (source_ok os c) srcs = false ->
  exists e, (ComposeObject_sources os c srcs).2 = Some e.
Proof.
  induction srcs as [|src rest IH]; [done|]. simpl.
  intros [Hs|Hr]%andb_false_iff.
  - unfold source_ok in Hs.
    destruct (String.eqb (Minio.CopySrc_Bucket src) (bucketName c)); [|done].
    simpl in Hs. apply bool_decide_eq_false in Hs.
    destruct (ValidatePath os c (Minio.CopySrc_Object src)); [by eexists|done].
  - destruct (IH Hr) as [e He].
    destruct (ComposeObject_sources os c rest) as [l o]. simpl in He. subst o.
    destruct (String.eqb (Minio.CopySrc_Bucket src) (bucketName c)); [|by eexists].
    destruct (ValidatePath os c (Minio.CopySrc_Object src)); by eexists.
Qed.

(** [ComposeObject] on a valid destination: when every source is of another
    bucket or has a valid path, one request is sent, in which the sources of
    the configured bucket carry the base prefix and the others are as given,
    and the destination options are the caller's with bucket and key set (its
    encryption, metadata and tags are kept, unlike in [CopyObject]).  When
    some source of the configured bucket has an invalid path, nothing is
    sent and an error is returned. *)
Theorem ComposeObject_sources_and_opts (os : GOOS) (c : Client) (dest : string)
    (srcs : list Minio.CopySrcOptions) (opts : Minio.CopyDestOptions) :
  ValidatePath os c dest = None ->
  (forallb (source_ok os c) srcs = true ->
   forall (St : Type) (h : Collaborator St) (s : St),
     (exec h (ComposeObject os c dest srcs opts) s).2
     = [Req (Minio.ComposeObject
               (Minio.mkCopyDestOptions (bucketName c) (buildPath os c dest)
                  (Minio.CopyDest_Encryption opts) (Minio.CopyDest_UserMetadata opts)
                  (Minio.CopyDest_ReplaceMetadata opts) (Minio.CopyDest_UserTags opts)
                  (Minio.CopyDest_ReplaceTags opts))
               (map (prefixed_source os c) srcs))])
  /\ (forallb (source_ok os c) srcs = false ->
      exists e, ComposeObject os c dest srcs opts = Ret (Minio.UploadInfo_zero, Some e)).
Proof.
  intros Hv. unfold ComposeObject. rewrite Hv. split.
  - intros Hs St h s. rewrite (ComposeObject_sources_ok os c srcs Hs).
    rewrite exec_call_bind. unfold CopyDestOptions_setDest.
    by destruct (h _ _ s) as [[u [e|]] s1].
  - intros [e He]%ComposeObject_sources_bad.
    destruct (ComposeObject_sources os c srcs) as [l o]. simpl in He. subst o.
    by exists e.
Qed.

Lemma ComposeObject_sources_and_opts_witness :
  let c := mkClient "b" "app-data" "" in
  let opts := Minio.mkCopyDestOptions "" "" (Some "SSE-S3") [("owner", "alice")] true [] false in
  (exec MemStore.serve
     (ComposeObject unix c "out/all.bin"
        [Minio.mkCopySrcOptions "b" "parts/1" ""; Minio.mkCopySrcOptions "other" "../raw" "v2"]
        opts) ∅).2
  = [Req (Minio.ComposeObject
            (Minio.mkCopyDestOptions "b" "app-data/out/all.bin" (Some "SSE-S3")
               [("owner", "alice")] true [] false)
            [Minio.mkCopySrcOptions "b" "app-data/parts/1" "";
             Minio.mkCopySrcOptions "other" "../raw" "v2"])]
  /\ exists e,
       ComposeObject unix c "out/all.bin" [Minio.mkCopySrcOptions "b" "/abs" ""] opts
       = Ret (Minio.UploadInfo_zero, Some e).
Proof.
  intros c opts. split.
  - exact (proj1 (ComposeObject_sources_and_opts unix c "out/all.bin"
                    [Minio.mkCopySrcOptions "b" "parts/1" "";
                     Minio.mkCopySrcOptions "other" "../raw" "v2"] opts eq_refl)
             eq_refl _ MemStore.serve ∅).
  - exact (proj2 (ComposeObject_sources_and_opts unix c "out/all.bin"
                    [Minio.mkCopySrcOptions "b" "/abs" ""] opts eq_refl) eq_refl).
Defined.

(** One slash at the end of the public base URL makes no difference to
    [GetPublicURL], and for a valid path the string that is parsed joins the
    base URL, the bucket and the built key with single slashes. *)
Theorem GetPublicURL_trailing_slash (os : GOOS)
    (url_Parse : string -> option Minio.URL * error)
    (bucket base url p : string) :
  url <> "" ->
  HasSuffix url "/" = false ->
  GetPublicURL os url_Parse (mkClient bucket base (url +:+ "/")) p
  = GetPublicURL os url_Parse (mkClient bucket base url) p
  /\ (ValidatePath os (mkClient bucket base url) p = None ->
      GetPublicURL os url_Parse (mkClient bucket base url) p
      = url_Parse (url +:+ "/" +:+ bucket +:+ "/"
                   +:+ buildPath os (mkClient bucket base url) p)).
Proof.
  intros Hne Hs. unfold GetPublicURL. simpl publicBaseURL. simpl bucketName.
  assert (String.eqb url "" = false) as -> by (by apply String.eqb_neq).
  assert (String.eqb (url +:+ "/") "" = false) as ->.
  { apply String.eqb_neq. by destruct url. }
  rewrite TrimSuffix_app_byte. unfold TrimSuffix at 1 2. rewrite Hs.
  split; [done|]. intros Hv. by rewrite Hv.
Qed.

Lemma GetPublicURL_trailing_slash_witness :
  GetPublicURL unix (fun u => (Some u, None))
    (mkClient "b" "app-data" "https://cdn.example/") "img/x.png"
  = (Some "https://cdn.example/b/app-data/img/x.png", None).
Proof.
  pose proof (GetPublicURL_trailing_slash unix (fun u => (Some u, None))
                "b" "app-data" "https://cdn.example" "img/x.png") as [H1 H2];
    [discriminate | reflexivity |].
  exact (eq_trans H1 (H2 eq_refl)).
Defined.

(** [PresignedPostPolicyWithConditions] without a content type is
    [PresignedPostPolicyForUpload], and [GetPresignedURL] is
    [GetPresignedURLWithParams] without parameters; a size limit that is
    not positive puts no length range into the policy. *)
Theorem presigned_variants_agree (os : GOOS) (c : Client) (p : string)
    (expiry : Minio.Duration) :
  (forall maxSize,
     PresignedPostPolicyWithConditions os c p expiry "" maxSize
     = PresignedPostPolicyForUpload os c p expiry maxSize)
  /\ GetPresignedURL os c p expiry = GetPresignedURLWithParams os c p expiry None
  /\ (forall maxSize (St : Type) (h : Collaborator St) (s : St),
        ValidatePath os c p = None ->
        (maxSize <= 0)%Z ->
        (exec h (PresignedPostPolicyForUpload os c p expiry maxSize) s).2
        = [Req Minio.Now;
           Req (Minio.PresignedPostPolicy
                  [Minio.SetBucket (bucketName c); Minio.SetKey (buildPath os c p);
                   Minio.SetExpires ((h _ Minio.Now s).1 + expiry)%Z])]).
Proof.
  split; [|split].
  - intros maxSize. unfold PresignedPostPolicyWithConditions,
      PresignedPostPolicyForUpload. by destruct (ValidatePath os c p).
  - done.
  - intros maxSize St h s Hv Hm. unfold PresignedPostPolicyForUpload.
    rewrite Hv, exec_call_bind. destruct (h _ Minio.Now s) as [now s1].
    rewrite exec_call. destruct (h _ _ s1) as [r s2].
    assert ((0 <? maxSize)%Z = false) as -> by lia. done.
Qed.

Lemma presigned_variants_agree_witness :
  (exec MemStore.serve
     (PresignedPostPolicyForUpload unix (mkClient "b" "app-data" "") "up/x" 60 0) ∅).2
  = [Req Minio.Now;
     Req (Minio.PresignedPostPolicy
            [Minio.SetBucket "b"; Minio.SetKey "app-data/up/x"; Minio.SetExpires 60])].
Proof.
  apply (proj2 (proj2 (presigned_variants_agree unix (mkClient "b" "app-data" "")
                         "up/x" 60%Z)) 0%Z _ MemStore.serve ∅); [reflexivity | lia].
Defined.

End OperationExtras.

(** ** The folder emulator, continued *)

Section FolderExtras.
Import Strings Filepath StringFacts PathFacts MoreStringFacts.

Lemma folder_name_pieces os c prefix o x :
  folder_name os c prefix o = Some x -> x <> "" /\ Contains x "/" = false.
Proof.
  unfold folder_name.
  destruct (Split _ "/") as [|a [|b l]] eqn:E; try done.
  destruct (decide (a = "")); [done|]. intros [= <-]. split; [done|].
  eapply Split_slash_pieces. rewrite E. by left.
Qed.

(** Every name [ListFolders] returns is a single segment: not empty, and
    without a separator in it; this for any store and any listing. *)
Theorem ListFolders_names_are_segments (os : GOOS) (c : Client) (prefix : string)
    {St : Type} (h : Collaborator St) (s : St) :
  ValidatePath os c prefix = None ->
  forall x, x ∈ (exec h (ListFolders os c prefix) s).1.1.1 ->
            x <> "" /\ Contains x "/" = false.
Proof.
  intros Hv x. rewrite exec_ListFolders by done. cbv zeta.
  destruct (h _ _ s) as [objectCh s1]. simpl. unfold folders_of_listing.
  destruct (first_listing_error objectCh); simpl.
  - by intros ?%elem_of_nil.
  - rewrite first_seen_elem, list_elem_of_omap. intros (o & _ & Ho).
    by eapply folder_name_pieces.
Qed.

Lemma ListFolders_names_are_segments_witness :
  "b" <> "" /\ Contains "b" "/" = false.
Proof.
  apply (ListFolders_names_are_segments unix (mkClient "b" "" "") "docs"
           MemStore.serve docs_store eq_refl "b").
  vm_compute. by left.
Defined.

Lemma first_segment_nonempty (s : string) :
  s <> "" -> HasPrefix s "/" = false -> first_segment s <> "".
Proof.
  intros Hs Hp. unfold first_segment.
  destruct (Split s "/") as [|a t] eqn:E; [by apply Split_slash_nonempty in E|].
  simpl. intros ->. apply Split_slash_head_empty in E as [E|E]; congruence.
Qed.

(** A folder is found by a root listing from any key below it: for a path
    with something left after normalization, an entry whose key is the
    built key of the folder, a separator and anything (the marker
    [".empty"], a child object, or nothing as in a rolled-up prefix) gives
    the folder's first segment, and [ListFolders ""] returns it whenever
    the listing has such an entry and no error. *)
Theorem folder_found_from_keys_below (os : GOOS) (c : Client) (p : string) :
  normalize os p <> "" ->
  (forall rest size date,
     folder_name os c ""
       (Minio.mkObjectInfo (buildPath os c p +:+ "/" +:+ rest) size date None)
     = Some (first_segment (normalize os p)))
  /\ (forall (St : Type) (h : Collaborator St) (s : St) o rest,
        let listing :=
          Minio.ListObjects (bucketName c)
            (Minio.mkListObjectsOptions (ListFolders_prefix os c "") false) in
        first_listing_error (h _ listing s).1 = None ->
        o ∈ (h _ listing s).1 ->
        Minio.Key o = buildPath os c p +:+ "/" +:+ rest ->
        first_segment (normalize os p) ∈ (exec h (ListFolders os c "") s).1.1.1).
Proof.
  intros Hn.
  assert (forall rest,
            exists rest', stripBasePath os c (buildPath os c p +:+ "/" +:+ rest)
                          = normalize os p +:+ "/" +:+ rest') as Hstrip.
  { intros rest. unfold stripBasePath. rewrite buildPath_cases.
    destruct (String.eqb (baseDirPrefix c) ""); [by exists rest|].
    apply String.eqb_neq in Hn. rewrite Hn.
    fold (normalize os (baseDirPrefix c)).
    exists (ToSlash os rest).
    rewrite !ToSlash_app, !ToSlash_normalize, ToSlash_slash.
    rewrite <- (append_assoc (normalize os (baseDirPrefix c)) "/").
    rewrite (append_assoc (normalize os (baseDirPrefix c) +:+ "/")).
    by rewrite HasPrefix_app, TrimPrefix_app. }
  assert (forall o rest,
            Minio.Key o = buildPath os c p +:+ "/" +:+ rest ->
            folder_name os c "" o = Some (first_segment (normalize os p))) as Hname.
  { intros o rest Hk. unfold folder_name. rewrite Hk.
    destruct (Hstrip rest) as [rest' ->]. rewrite decide_True by done.
    rewrite Split_slash_app. unfold first_segment.
    pose proof (first_segment_nonempty (normalize os p) Hn
                  (Trim_no_leading_slash (ToSlash os p))) as Hf.
    unfold first_segment in Hf.
    destruct (Split (normalize os p) "/") as [|a t] eqn:E;
      [by apply Split_slash_nonempty in E|].
    destruct (Split rest' "/") as [|b u] eqn:E';
      [by apply Split_slash_nonempty in E'|].
    simpl in Hf. destruct t; simpl; by rewrite decide_False. }
  split.
  - intros rest size date. by apply (Hname _ rest).
  - intros St h s o rest listing Herr Ho Hk.
    rewrite exec_ListFolders by apply ValidatePath_empty. cbv zeta. fold listing.
    destruct (h _ listing s) as [objectCh s1]. simpl in *.
    unfold folders_of_listing. rewrite Herr. simpl.
    rewrite first_seen_elem, list_elem_of_omap. exists o. split; [done|].
    by apply (Hname _ rest).
Qed.

Lemma folder_found_from_keys_below_witness :
  let c := mkClient "b" "app-data" "" in
  folder_name unix c "" (Minio.mkObjectInfo "app-data/images/.empty" 0 0 None)
  = Some "images"
  /\ folder_name unix c "" (Minio.mkObjectInfo "app-data/images/" 0 0 None)
     = Some "images".
Proof.
  intros c.
  assert (normalize unix "images" <> "") as Hn by discriminate.
  pose proof (proj1 (folder_found_from_keys_below unix c "images" Hn)) as H.
  split; [exact (H ".empty" 0%Z 0%Z) | exact (H "" 0%Z 0%Z)].
Defined.

(** *** On the in-memory store *)

Lemma keys_under_elem (st : MemStore.Store) bucket prefix k :
  k ∈ MemStore.keys_under st bucket prefix
  <-> is_Some (st !! (bucket, k)) /\ HasPrefix k prefix = true.
Proof.
  unfold MemStore.keys_under. rewrite merge_sort_Permutation, list_elem_of_omap.
  split.
  - intros ([[b k'] body] & Hin & Hf). apply elem_of_map_to_list in Hin.
    destruct (String.eqb_spec b bucket) as [->|]; [|done]. simpl in Hf.
    destruct (HasPrefix k' prefix) eqn:E; [|done]. injection Hf as ->. eauto.
  - intros [[body Hb] Hp]. exists ((bucket, k), body). split.
    + by apply elem_of_map_to_list.
    + by rewrite String.eqb_refl, Hp.
Qed.

Lemma list_objects_recursive_keys (st : MemStore.Store) bucket prefix :
  map Minio.Key (MemStore.list_objects st bucket (Minio.mkListObjectsOptions prefix true))
  = MemStore.keys_under st bucket prefix.
Proof.
  unfold MemStore.list_objects. simpl. rewrite map_map. simpl. apply map_id.
Qed.

Lemma remove_objects_lookup (st : MemStore.Store) bucket objs b k :
  MemStore.remove_objects st bucket objs !! (b, k)
  = if decide (b = bucket /\ k ∈ map Minio.Key objs) then None else st !! (b, k).
Proof.
  unfold MemStore.remove_objects. induction objs as [|o l IH]; simpl.
  - rewrite decide_False; [done|]. intros [_ H]. by apply elem_of_nil in H.
  - destruct (decide ((bucket, Minio.Key o) = (b, k))) as [E|E].
    + injection E as <- <-. rewrite lookup_delete_eq.
      rewrite decide_True; [done|]. split; [done|]. by left.
    + rewrite lookup_delete_ne by done. rewrite IH.
      destruct (decide (b = bucket /\ k ∈ map Minio.Key l)) as [[-> H]|H].
      * rewrite decide_True; [done|]. split; [done|]. by right.
      * rewrite decide_False; [done|]. intros [-> [->|H']%elem_of_cons]; tauto.
Qed.

Lemma exec_RemoveFolder {St : Type} (h : Collaborator St) os c p (s : St) :
  ValidatePath os c p = None ->
  exec h (RemoveFolder os c p) s =
  let listing :=
    Minio.ListObjects (bucketName c)
      (Minio.mkListObjectsOptions (buildPath os c p +:+ "/") true) in
  let '(objectCh, s1) := h _ listing s in
  let delete :=
    Minio.RemoveObjects (bucketName c) objectCh Minio.RemoveObjectsOptions_zero in
  let '(errorCh, s2) := h _ delete s1 in
  (RemoveFolder_errors errorCh, s2, [Req listing; Req delete]).
Proof.
  intros Hv. unfold RemoveFolder.
  rewrite Hv, buildPath_no_trailing_slash. simpl negb. cbv iota zeta.
  rewrite exec_call_bind. destruct (h _ _ s) as [objectCh s1].
  rewrite exec_call_bind. by destruct (h _ _ s1) as [errorCh s2].
Qed.

(** On the in-memory store, creating a folder makes it exist: after
    [CreateFolder] on a valid path, [FolderExists] on that path answers
    true. *)
Theorem CreateFolder_then_FolderExists (os : GOOS) (c : Client) (p : string)
    (st : MemStore.Store) :
  ValidatePath os c p = None ->
  let '(err, st1, _) := exec MemStore.serve (CreateFolder os c p) st in
  err = None
  /\ (exec MemStore.serve (FolderExists os c p) st1).1.1 = (true, None).
Proof.
  intros Hv. rewrite exec_CreateFolder by done. simpl. unfold MemStore.stat.
  destruct (st !! (bucketName c, marker_key os c p)) as [body|] eqn:E; simpl.
  - split; [done|]. rewrite exec_FolderExists by done. simpl.
    unfold MemStore.stat. by rewrite E.
  - split; [done|]. rewrite exec_FolderExists by done. simpl.
    unfold MemStore.stat. by rewrite lookup_insert_eq.
Qed.

Lemma CreateFolder_then_FolderExists_witness :
  let c := mkClient "b" "app-data" "" in
  let '(err, st1, _) := exec MemStore.serve (CreateFolder unix c "images") images_store in
  err = None
  /\ (exec MemStore.serve (FolderExists unix c "images") st1).1.1 = (true, None).
Proof.
  exact (CreateFolder_then_FolderExists unix (mkClient "b" "app-data" "") "images"
           images_store eq_refl).
Defined.

(** On the in-memory store, [RemoveFolder] on a valid path succeeds and
    removes exactly the objects of the configured bucket whose key starts
    with the built key and a separator: every other object, in particular
    one whose key only starts with the same bytes (["docs-old/x"] beside
    ["docs"]), is as before; and the folder does not exist afterwards. *)
Theorem RemoveFolder_removes_exactly (os : GOOS) (c : Client) (p : string)
    (st : MemStore.Store) :
  ValidatePath os c p = None ->
  let '(err, st1, _) := exec MemStore.serve (RemoveFolder os c p) st in
  err = None
  /\ (forall b k,
        st1 !! (b, k)
        = if decide (b = bucketName c
                     /\ HasPrefix k (buildPath os c p +:+ "/") = true)
          then None else st !! (b, k))
  /\ (exec MemStore.serve (FolderExists os c p) st1).1.1 = (false, None).
Proof.
  intros Hv. rewrite exec_RemoveFolder by done. simpl.
  set (prefix := buildPath os c p +:+ "/").
  assert (forall b k,
            MemStore.remove_objects st (bucketName c)
              (MemStore.list_objects st (bucketName c)
                 (Minio.mkListObjectsOptions prefix true)) !! (b, k)
            = if decide (b = bucketName c /\ HasPrefix k prefix = true)
              then None else st !! (b, k)) as Hl.
  { intros b k. rewrite remove_objects_lookup, list_objects_recursive_keys.
    destruct (decide (b = bucketName c /\ HasPrefix k prefix = true)) as [[-> Hk]|Hn].
    - destruct (st !! (bucketName c, k)) as [body|] eqn:E.
      + rewrite decide_True; [done|]. split; [done|].
        apply keys_under_elem. by rewrite E.
      + by destruct (decide _).
    - rewrite decide_False; [done|]. intros [-> Hk%keys_under_elem]. tauto. }
  split; [done|]. split; [exact Hl|].
  rewrite exec_FolderExists by done. simpl. unfold MemStore.stat.
  rewrite Hl. rewrite decide_True; [done|]. split; [done|].
  unfold marker_key, prefix.
  change "/.empty" with ("/" +:+ ".empty").
  rewrite <- append_assoc. apply HasPrefix_app.
Qed.

Lemma RemoveFolder_removes_exactly_witness :
  let c := mkClient "b" "" "" in
  let st : MemStore.Store :=
    {[ ("b", "docs/a.txt") := "a"; ("b", "docs/.empty") := "";
       ("b", "docs-old/x") := "x" ]} in
  let '(err, st1, _) := exec MemStore.serve (RemoveFolder unix c "docs") st in
  err = None
  /\ st1 !! ("b", "docs/a.txt") = None
  /\ st1 !! ("b", "docs-old/x") = Some "x".
Proof.
  intros c st.
  pose proof (RemoveFolder_removes_exactly unix c "docs" st eq_refl) as H.
  destruct (exec MemStore.serve (RemoveFolder unix c "docs") st) as [[err st1] log].
  destruct H as (H1 & H2 & _). split; [exact H1|]. split.
  - by rewrite H2.
  - by rewrite H2.
Defined.

End FolderExtras.

(** ** Construction *)

Section ConstructionExtras.
Context {Handle : Type}.
Variable minio_New : string -> string -> string -> bool -> Handle * error.
Variable minio_BucketExists : Handle -> string -> bool * error.

(** [New] returns a client exactly when the configuration is there, its
    endpoint, access key, secret key and bucket name are not empty,
    [minio.New] gives no error and the bucket is reported to exist; the
    client then has the bucket name, the base prefix (as given, not
    trimmed) and the public URL of the configuration.  In every other case
    it returns an error and no client. *)
Theorem New_succeeds_iff (config : option Config) (c : Client) :
  (New Handle minio_New minio_BucketExists config = (Some c, None)
   <-> exists cfg,
         config = Some cfg
         /\ Endpoint cfg <> "" /\ AccessKey cfg <> ""
         /\ SecretKey cfg <> "" /\ BucketName cfg <> ""
         /\ (minio_New (Endpoint cfg) (AccessKey cfg) (SecretKey cfg) (UseSSL cfg)).2
            = None
         /\ minio_BucketExists
              (minio_New (Endpoint cfg) (AccessKey cfg) (SecretKey cfg) (UseSSL cfg)).1
              (BucketName cfg)
            = (true, None)
         /\ GetBucketName c = BucketName cfg
         /\ GetBaseDirPrefix c = BaseDirPrefix cfg
         /\ GetPublicBaseURL c = PublicURL cfg)
  /\ ((exists c', New Handle minio_New minio_BucketExists config = (Some c', None))
      \/ (exists e, New Handle minio_New minio_BucketExists config = (None, Some e))).
Proof.
  unfold GetBucketName, GetBaseDirPrefix, GetPublicBaseURL.
  split; [split|].
  - unfold New. destruct config as [cfg|]; [|done].
    destruct (String.eqb_spec (Endpoint cfg) "") as [E1|E1]; [done|].
    destruct (String.eqb_spec (AccessKey cfg) "") as [E2|E2]; [done|].
    destruct (String.eqb_spec (SecretKey cfg) "") as [E3|E3]; [done|].
    destruct (String.eqb_spec (BucketName cfg) "") as [E4|E4]; [done|].
    destruct (minio_New _ _ _ _) as [client [e|]] eqn:En; [done|].
    destruct (minio_BucketExists client (BucketName cfg)) as [[|] [e|]] eqn:Eb;
      try done.
    intros [= <-]. exists cfg. rewrite En. simpl. by rewrite Eb.
  - intros (cfg & -> & H1 & H2 & H3 & H4 & H5 & H6 & H7 & H8 & H9). unfold New.
    apply String.eqb_neq in H1, H2, H3, H4. rewrite H1, H2, H3, H4.
    destruct (minio_New _ _ _ _) as [client err]. simpl in H5, H6. subst err.
    rewrite H6. simpl. destruct c as [b d u]. simpl in *. by subst.
  - unfold New. destruct config as [cfg|]; [|right; by eexists].
    destruct (String.eqb (Endpoint cfg) ""); [right; by eexists|].
    destruct (String.eqb (AccessKey cfg) ""); [right; by eexists|].
    destruct (String.eqb (SecretKey cfg) ""); [right; by eexists|].
    destruct (String.eqb (BucketName cfg) ""); [right; by eexists|].
    destruct (minio_New _ _ _ _) as [client [e|]]; [right; by eexists|].
    destruct (minio_BucketExists client (BucketName cfg)) as [[|] [e|]];
      simpl; [right|left|right|right]; by eexists.
Qed.

End ConstructionExtras.

Lemma New_succeeds_iff_witness :
  New unit (fun _ _ _ _ => (tt, None)) (fun _ bucket => (String.eqb bucket "b", None))
    (Some (mkConfig "localhost:9000" "ak" "sk" false "b" "/app-data/" ""))
  = (Some (mkClient "b" "/app-data/" ""), None).
Proof.
  apply (proj1 (New_succeeds_iff (fun _ _ _ _ => (tt, None))
                  (fun _ bucket => (String.eqb bucket "b", None))
                  (Some (mkConfig "localhost:9000" "ak" "sk" false "b" "/app-data/" ""))
                  (mkClient "b" "/app-data/" ""))).
  exists (mkConfig "localhost:9000" "ak" "sk" false "b" "/app-data/" "").
  repeat (split; [try done; discriminate|]). done.
Defined.

(** A configuration that is missing, or has an empty required field, is
    refused whatever the two outside calls would answer, so without their
    being needed: the error is that of the first empty field in the order
    endpoint, access key, secret key, bucket name. *)
Theorem New_required_fields {Handle : Type}
    (minio_New : string -> string -> string -> bool -> Handle * error)
    (minio_BucketExists : Handle -> string -> bool * error) :
  New Handle minio_New minio_BucketExists None = (None, Some ConfigNil)
  /\ forall cfg,
       Endpoint cfg = "" \/ AccessKey cfg = "" \/ SecretKey cfg = ""
       \/ BucketName cfg = "" ->
       New Handle minio_New minio_BucketExists (Some cfg)
       = (None,
          Some (if String.eqb (Endpoint cfg) "" then EndpointRequired
                else if String.eqb (AccessKey cfg) "" then AccessKeyRequired
                else if String.eqb (SecretKey cfg) "" then SecretKeyRequired
                else BucketNameRequired)).
Proof.
  split; [done|]. intros cfg H. unfold New.
  destruct (String.eqb_spec (Endpoint cfg) ""); [done|].
  destruct (String.eqb_spec (AccessKey cfg) ""); [done|].
  destruct (String.eqb_spec (SecretKey cfg) ""); [done|].
  destruct (String.eqb_spec (BucketName cfg) ""); [done|].
  tauto.
Qed.

Lemma New_required_fields_witness :
  New unit (fun _ _ _ _ => (tt, None)) (fun _ _ => (true, None))
    (Some (mkConfig "localhost:9000" "" "" false "b" "" ""))
  = (None, Some AccessKeyRequired).
Proof.
  apply (proj2 (New_required_fields (fun _ _ _ _ => (tt, None))
                  (fun _ _ => (true, None)))
           (mkConfig "localhost:9000" "" "" false "b" "" "")).
  right. by left.
Defined.

(** ** Listing below a prefix *)

Section ListingExtras.
Import Strings Filepath StringFacts PathFacts MoreStringFacts.

Lemma Split_no_slash (s : string) :
  Contains s "/" = false -> Split s "/" = [s].
Proof.
  induction s as [|c s IH]; [done|]. rewrite Split_slash_cons.
  cbn [Contains HasPrefix]. intros [Hc Hs]%orb_false_iff.
  destruct (Ascii.eqb c "/"); [done|]. by rewrite (IH Hs).
Qed.

Lemma stripBasePath_below_built os c p rest :
  normalize os p <> "" ->
  stripBasePath os c (buildPath os c p +:+ "/" +:+ rest)
  = normalize os p +:+ "/"
    +:+ (if String.eqb (baseDirPrefix c) "" then rest else ToSlash os rest).
Proof.
  intros Hn. unfold stripBasePath. rewrite buildPath_cases.
  destruct (String.eqb (baseDirPrefix c) ""); [done|].
  apply String.eqb_neq in Hn. rewrite Hn.
  fold (normalize os (baseDirPrefix c)).
  rewrite !ToSlash_app, !ToSlash_normalize, ToSlash_slash.
  rewrite <- (append_assoc (normalize os (baseDirPrefix c)) "/").
  rewrite (append_assoc (normalize os (baseDirPrefix c) +:+ "/")).
  by rewrite HasPrefix_app, TrimPrefix_app.
Qed.

(** [ListFolders prefix] finds the folders directly below the prefix: an
    entry whose key is the built prefix, a separator, a name without
    separator, a separator and anything gives that name, and the call
    returns the name whenever the listing has such an entry and no error.
    (The prefix is one that trimming alone normalizes, as every prefix is
    where the separator is the slash.) *)
Theorem ListFolders_finds_children (os : GOOS) (c : Client) (prefix child : string) :
  ValidatePath os c prefix = None ->
  normalize os prefix <> "" ->
  Trim prefix "/" = normalize os prefix ->
  child <> "" -> Contains child "/" = false -> ToSlash os child = child ->
  (forall rest size date,
     folder_name os c prefix
       (Minio.mkObjectInfo (buildPath os c prefix +:+ "/" +:+ child +:+ "/" +:+ rest)
          size date None)
     = Some child)
  /\ (forall (St : Type) (h : Collaborator St) (s : St) o rest,
        let listing :=
          Minio.ListObjects (bucketName c)
            (Minio.mkListObjectsOptions (buildPath os c prefix +:+ "/") false) in
        first_listing_error (h _ listing s).1 = None ->
        o ∈ (h _ listing s).1 ->
        Minio.Key o = buildPath os c prefix +:+ "/" +:+ child +:+ "/" +:+ rest ->
        child ∈ (exec h (ListFolders os c prefix) s).1.1.1).
Proof.
  intros Hv Hn Ht Hc Hs Hts.
  assert (prefix <> "") as Hp.
  { intros ->. apply Hn. unfold normalize. by rewrite ToSlash_empty. }
  assert (forall o rest,
            Minio.Key o = buildPath os c prefix +:+ "/" +:+ child +:+ "/" +:+ rest ->
            folder_name os c prefix o = Some child) as Hname.
  { intros o rest Hk. unfold folder_name. rewrite Hk, decide_False by done.
    rewrite stripBasePath_below_built by done. rewrite Ht.
    assert (exists rest',
              (if String.eqb (baseDirPrefix c) "" then child +:+ "/" +:+ rest
               else ToSlash os (child +:+ "/" +:+ rest))
              = child +:+ "/" +:+ rest') as [rest' ->].
    { destruct (String.eqb (baseDirPrefix c) ""); [by eexists|].
      exists (ToSlash os rest). by rewrite !ToSlash_app, Hts, ToSlash_slash. }
    rewrite <- (append_assoc (normalize os prefix) "/"), TrimPrefix_app.
    rewrite Split_slash_app, (Split_no_slash child Hs).
    destruct (Split rest' "/") as [|b u] eqn:E;
      [by apply Split_slash_nonempty in E|].
    simpl. by rewrite decide_False. }
  split.
  - intros rest size date. by apply (Hname _ rest).
  - intros St h s o rest listing Herr Ho Hk.
    rewrite exec_ListFolders by done. cbv zeta.
    assert (ListFolders_prefix os c prefix = buildPath os c prefix +:+ "/") as ->.
    { unfold ListFolders_prefix. rewrite buildPath_cases.
      apply String.eqb_neq in Hn.
      destruct (String.eqb (baseDirPrefix c) ""); rewrite Hn; [done|].
      destruct (String.eqb_spec
                  (normalize os (baseDirPrefix c) +:+ "/" +:+ normalize os prefix) "")
        as [E|E]; [|done].
      destruct (normalize os (baseDirPrefix c)); discriminate E. }
    fold listing. destruct (h _ listing s) as [objectCh s1]. simpl in *.
    unfold folders_of_listing. rewrite Herr. simpl.
    rewrite first_seen_elem, list_elem_of_omap. exists o. split; [done|].
    by apply (Hname _ rest).
Qed.

Lemma ListFolders_finds_children_witness :
  let c := mkClient "b" "app-data" "" in
  folder_name unix c "docs/"
    (Minio.mkObjectInfo "app-data/docs/b/c.txt" 1 0 None)
  = Some "b".
Proof.
  intros c.
  assert (normalize unix "docs/" <> "") as Hn by discriminate.
  assert ("b" <> "") as Hc by discriminate.
  exact (proj1 (ListFolders_finds_children unix c "docs/" "b"
                  eq_refl Hn eq_refl Hc eq_refl eq_refl) "c.txt" 1%Z 0%Z).
Defined.

End ListingExtras.
